(** * Gold vs. inflation: the alignment and rolling-statistics core of [code.py]

    A shallow embedding of the analysis script [src/code/code.py]: the date
    normalisation of the two CSV columns, the inner merge and sort, the date
    gap check, the percentage-change columns with [dropna], the static OLS
    fit and the rolling correlation / rolling beta columns.

    Conventions of the embedding.
    - A pandas column is a [list]; a data frame is a list of row records.
    - A [float64] is a value of [F64.float]: [NaN], a signed infinity, or a
      finite number carried as an exact rational.  The special values follow
      IEEE 754 as numpy applies it (x/0, 0/0, inf-inf, ...); rounding,
      overflow and signed zeros are not represented.
    - A timestamp is a calendar date; the integer a [datetime64] column stores
      for it is its day number [value] (proleptic Gregorian, 1970-01-01 = 0).
      Missing dates (NaT) are not represented.
    - The third-party routines the script calls are arguments of the
      definitions that call them: [pd.to_datetime], the OLS fit of
      statsmodels and the printing of its summary, and the two correlation
      routines of pandas ([Series.corr] and the rolling one), each an
      argument of its own.  An exception raised by such a call is the result
      [None]. *)

From Stdlib Require Import String ZArith QArith Qcanon List Bool Lia.
From Stdlib Require Import Sorted Permutation Ascii.
Import ListNotations.
Open Scope Z_scope.

(* ================================================================== *)
(** * float64 values *)

Module F64.

Inductive float : Type :=
| NaN : float
| Inf (neg : bool) : float
| Fin (q : Qc) : float.

Definition is_zero (q : Qc) : bool := Qeq_bool q 0.

Definition is_neg (q : Qc) : bool :=
  match Qccompare q 0 with Lt => true | _ => false end.

Definition of_Z (z : Z) : float := Fin (Q2Qc (inject_Z z)).

Definition add (a b : float) : float :=
  match a, b with
  | NaN, _ | _, NaN => NaN
  | Inf s, Inf s' => if Bool.eqb s s' then Inf s else NaN
  | Inf s, Fin _ => Inf s
  | Fin _, Inf s => Inf s
  | Fin p, Fin q => Fin (p + q)%Qc
  end.

Definition sub (a b : float) : float :=
  match a, b with
  | NaN, _ | _, NaN => NaN
  | Inf s, Inf s' => if Bool.eqb s s' then NaN else Inf s
  | Inf s, Fin _ => Inf s
  | Fin _, Inf s => Inf (negb s)
  | Fin p, Fin q => Fin (p - q)%Qc
  end.

Definition mul (a b : float) : float :=
  match a, b with
  | NaN, _ | _, NaN => NaN
  | Inf s, Inf s' => Inf (xorb s s')
  | Inf s, Fin q => if is_zero q then NaN else Inf (xorb s (is_neg q))
  | Fin p, Inf s => if is_zero p then NaN else Inf (xorb (is_neg p) s)
  | Fin p, Fin q => Fin (p * q)%Qc
  end.

Definition div (a b : float) : float :=
  match a, b with
  | NaN, _ | _, NaN => NaN
  | Inf _, Inf _ => NaN
  | Inf s, Fin q => Inf (xorb s (is_neg q))
  | Fin _, Inf _ => Fin 0%Qc
  | Fin p, Fin q =>
      if is_zero q
      then (if is_zero p then NaN else Inf (is_neg p))
      else Fin (p / q)%Qc
  end.

(** [pd.isna] on a float: only NaN is missing; an infinity is a value. *)
Definition isna (a : float) : bool :=
  match a with NaN => true | _ => false end.

Definition is_finite (a : float) : bool :=
  match a with Fin _ => true | _ => false end.

Definition is_inf (a : float) : bool :=
  match a with Inf _ => true | _ => false end.

(** Value comparison used to read results off concrete runs
    (NaN compares equal to NaN here: it tests which value was produced). *)
Definition same (a b : float) : bool :=
  match a, b with
  | NaN, NaN => true
  | Inf s, Inf s' => Bool.eqb s s'
  | Fin p, Fin q => Qeq_bool p q
  | _, _ => false
  end.

End F64.

Import F64.

(* ================================================================== *)
(** * Timestamps and the monthly key *)

Record Timestamp : Type := mkTimestamp { year : Z; month : Z; day : Z }.

(** Day number of a calendar date, the integer stored by [datetime64]. *)
Definition days_from_civil (y m d : Z) : Z :=
  let y' := if m <=? 2 then y - 1 else y in
  let era := y' / 400 in
  let yoe := y' - era * 400 in
  let mp := (m + 9) mod 12 in
  let doy := (153 * mp + 2) / 5 + d - 1 in
  let doe := yoe * 365 + yoe / 4 - yoe / 100 + doy in
  era * 146097 + doe - 719468.

Definition value (t : Timestamp) : Z :=
  days_from_civil (year t) (month t) (day t).

(** [values.astype("datetime64[M]")] stored back in the column: the month
    precision keeps year and month, and the column holds the first day. *)
Definition month_start (t : Timestamp) : Timestamp :=
  {| year := year t; month := month t; day := 1 |}.

Definition astype_month (dates : list Timestamp) : list Timestamp :=
  map month_start dates.

(* ================================================================== *)
(** * 1. Date parsing (lines 22-47) *)

(** [pd.to_datetime(series, format=fmt)]: [Some fmt] is an explicit format,
    [None] is the call without format (inference).  The result [None] is the
    [ValueError] pandas raises when some element of the series does not
    parse. *)
Definition date_parser : Type :=
  option string -> list string -> option (list Timestamp).

Definition gold_formats : list string :=
  ["%b %Y"; "%b %y"; "%d/%m/%Y"; "%Y-%m-%d"]%string.

(** The [for fmt in ...: try ... break / except ValueError: continue / else]
    loop of lines 23-30.  An exhausted list is the [else] branch. *)
Fixpoint try_formats (to_datetime : date_parser) (fmts : list string)
  (raw : list string) : option (list Timestamp) :=
  match fmts with
  | [] => to_datetime None raw
  | fmt :: rest =>
      match to_datetime (Some fmt) raw with
      | Some parsed => Some parsed
      | None => try_formats to_datetime rest raw
      end
  end.

(** Lines 23-30 then line 39. *)
Definition gold_dates (to_datetime : date_parser) (raw : list string)
  : option (list Timestamp) :=
  option_map astype_month (try_formats to_datetime gold_formats raw).

(** Lines 46-47. *)
Definition cpi_dates (to_datetime : date_parser) (raw : list string)
  : option (list Timestamp) :=
  option_map astype_month (to_datetime None raw).

(* ================================================================== *)
(** * 2. Merge, sort, gap check (lines 56-68) *)

(** A cell of a column the script does not name: the CSV files may carry
    more columns than [Date], [Price] and [CPI_Combined], and the frames keep
    them. *)
Inductive cell : Type :=
| Missing : cell
| Number (x : float) : cell
| Text (s : string) : cell.

Definition cell_isna (c : cell) : bool :=
  match c with
  | Missing => true
  | Number x => isna x
  | Text _ => false
  end.

Record GoldRow : Type := mkGold {
  gold_Date : Timestamp;
  gold_Price : float;
  gold_extra : list cell
}.

Record CpiRow : Type := mkCpi {
  cpi_Date : Timestamp;
  cpi_CPI_Combined : float;
  cpi_extra : list cell
}.

Record Row : Type := mkRow {
  Date : Timestamp;
  Price : float;
  CPI_Combined : float;
  extra : list cell
}.

Definition same_date (a b : Timestamp) : bool := value a =? value b.

(** [pd.merge(df_gold, df_cpi, on='Date', how='inner')]: one output row per
    pair of a left row and a right row with equal keys, in left order. *)
Definition merge (df_gold : list GoldRow) (df_cpi : list CpiRow) : list Row :=
  flat_map
    (fun g =>
       map (fun c => mkRow (gold_Date g) (gold_Price g) (cpi_CPI_Combined c)
                         (gold_extra g ++ cpi_extra c))
           (filter (fun c => same_date (gold_Date g) (cpi_Date c)) df_cpi))
    df_gold.

Fixpoint insert_by_date (r : Row) (sorted : list Row) : list Row :=
  match sorted with
  | [] => [r]
  | r' :: rest =>
      if value (Date r) <=? value (Date r')
      then r :: sorted
      else r' :: insert_by_date r rest
  end.

(** [df.sort_values('Date').reset_index(drop=True)]: ascending by key.
    Rows with equal keys keep their order here; pandas does not promise one
    for them, and nothing below depends on it. *)
Fixpoint sort_values (df : list Row) : list Row :=
  match df with
  | [] => []
  | r :: rest => insert_by_date r (sort_values rest)
  end.

Definition merged (df_gold : list GoldRow) (df_cpi : list CpiRow) : list Row :=
  sort_values (merge df_gold df_cpi).

Definition gold_keys (df_gold : list GoldRow) : list Z :=
  map (fun g => value (gold_Date g)) df_gold.

Definition cpi_keys (df_cpi : list CpiRow) : list Z :=
  map (fun c => value (cpi_Date c)) df_cpi.

Definition keys (df : list Row) : list Z :=
  map (fun r => value (Date r)) df.

(** [series.diff().dt.days]: the first entry is missing. *)
Fixpoint successive_days (prev : Timestamp) (rest : list Timestamp) : list (option Z) :=
  match rest with
  | [] => []
  | cur :: rest' => Some (value cur - value prev) :: successive_days cur rest'
  end.

Definition diff_days (dates : list Timestamp) : list (option Z) :=
  match dates with
  | [] => []
  | first :: rest => None :: successive_days first rest
  end.

Definition dropna_days (s : list (option Z)) : list Z :=
  flat_map (fun o => match o with Some d => [d] | None => [] end) s.

(** [(date_diffs.dropna() > 50).any()] *)
Definition gap_detected (df : list Row) : bool :=
  existsb (fun d => 50 <? d) (dropna_days (diff_days (map Date df))).

Definition gap_warning : string := "[WARNING] Possible date gaps detected!".
Definition gap_ok : string := "[OK] Date sequence looks correct (monthly intervals)".

(** Lines 64-68: the frame goes on unchanged, one line is printed. *)
Definition check_gaps (df : list Row) : list Row * string :=
  (df, if gap_detected df then gap_warning else gap_ok).

(* ================================================================== *)
(** * 3. Returns and inflation (lines 76-80) *)

Definition one : float := of_Z 1.
Definition hundred : float := of_Z 100.

(** [Series.ffill()], the padding [pct_change] applies by default in pandas
    before 3.0 ([fill_method='pad']). *)
Fixpoint ffill_from (last : float) (xs : list float) : list float :=
  match xs with
  | [] => []
  | x :: rest =>
      if isna x then last :: ffill_from last rest else x :: ffill_from x rest
  end.

Definition ffill (xs : list float) : list float := ffill_from NaN xs.

(** [Series.shift(1)] *)
Definition shift (xs : list float) : list float :=
  match xs with
  | [] => []
  | _ :: _ => NaN :: removelast xs
  end.

(** [Series.pct_change()]: [data / data.shift(1) - 1].  [pad] tells whether
    the installed pandas pads missing values first. *)
Definition pct_change (pad : bool) (xs : list float) : list float :=
  let data := if pad then ffill xs else xs in
  map (fun cp => sub (div (fst cp) (snd cp)) one) (combine data (shift data)).

Definition percent (xs : list float) : list float :=
  map (fun x => mul x hundred) xs.

Record Obs : Type := mkObs {
  base : Row;
  Inflation_Rate : float;
  Gold_Returns : float
}.

(** Lines 76-77: the two new columns. *)
Definition with_returns (pad : bool) (df : list Row) : list Obs :=
  let inflation := percent (pct_change pad (map CPI_Combined df)) in
  let returns := percent (pct_change pad (map Price df)) in
  map (fun t => mkObs (fst t) (fst (snd t)) (snd (snd t)))
      (combine df (combine inflation returns)).

Definition has_na (o : Obs) : bool :=
  isna (Price (base o)) || isna (CPI_Combined (base o))
  || existsb cell_isna (extra (base o))
  || isna (Inflation_Rate o) || isna (Gold_Returns o).

(** [df.dropna()]: rows with a missing value in any column go. *)
Definition dropna (df : list Obs) : list Obs :=
  filter (fun o => negb (has_na o)) df.

(** Lines 76-80. *)
Definition returns (pad : bool) (df : list Row) : list Obs :=
  dropna (with_returns pad df).

(** No value of the two raw columns is missing. *)
Definition no_missing (df : list Row) : Prop :=
  forallb (fun x => negb (isna x)) (map CPI_Combined df) = true /\
  forallb (fun x => negb (isna x)) (map Price df) = true.


(* ================================================================== *)
(** * 4. Static statistics (lines 94-109) *)

(** What the script reads from a fitted statsmodels model: coefficient and
    p-value series indexed by regressor name, in design-matrix order, and
    R-squared. *)
Record OLSResults : Type := mkOLS {
  params : list (string * float);
  pvalues : list (string * float);
  rsquared : float
}.

(** [sm.OLS(y, sm.add_constant(x)).fit()] as a function of the regressor
    [x] and the response [y]; [None] when the library raises. *)
Definition ols_fitter : Type := list float -> list float -> option OLSResults.

(** [Series.corr]: Pearson correlation of two columns. *)
Definition correlation : Type := list float -> list float -> float.

(** [print(model.summary())] for the model fitted on the regressor [x] and
    the response [y]: [None] when building the summary raises.  The text it
    prints is not represented. *)
Definition summary_printer : Type := list float -> list float -> option unit.

Fixpoint lookup (name : string) (s : list (string * float)) : option float :=
  match s with
  | [] => None
  | (n, v) :: rest => if String.eqb n name then Some v else lookup name rest
  end.

Record RegressionResult : Type := mkRegression {
  alpha : float;
  beta : float;
  beta_pvalue : float;
  r_squared : float
}.

(** [df['Inflation_Rate']] and [df['Gold_Returns']] *)
Definition col_Inflation_Rate (df : list Obs) : list float := map Inflation_Rate df.
Definition col_Gold_Returns (df : list Obs) : list float := map Gold_Returns df.

(** Line 94. *)
Definition corr_coeff (corr : correlation) (df : list Obs) : float :=
  corr (col_Inflation_Rate df) (col_Gold_Returns df).

(** Lines 98-109: the fit (line 100), the printing of its summary (line
    103) and the four values read from it (lines 106-109); [None] when the
    fit raises, when the summary raises or when a label is absent
    (KeyError). *)
Definition static_regression (ols : ols_fitter) (summary : summary_printer)
  (df : list Obs) : option RegressionResult :=
  match ols (col_Inflation_Rate df) (col_Gold_Returns df) with
  | None => None
  | Some model =>
      match summary (col_Inflation_Rate df) (col_Gold_Returns df) with
      | None => None
      | Some _ =>
          match lookup "Inflation_Rate" (params model),
                lookup "Inflation_Rate" (pvalues model),
                lookup "const" (params model) with
          | Some b, Some p, Some a => Some (mkRegression a b p (rsquared model))
          | _, _, _ => None
          end
      end
  end.

(* ================================================================== *)
(** * 5. Rolling statistics (lines 119-139) *)

(** [s.iloc[i:i+window]] *)
Definition iloc (xs : list float) (i window : nat) : list float :=
  firstn window (skipn i xs).

(** What [rolling(W).corr] computes from one full window of pairs.  It is a
    routine of its own in pandas (running sums over the window), not a call
    of [Series.corr], and nothing here relates the two. *)
Definition window_correlation : Type := list float -> list float -> float.

(** [x.rolling(window=W).corr(y)] for two columns of one frame: position
    [i] is missing until [W] observations are available, then it is the
    rolling routine's value on the [W] most recent pairs. *)
Definition rolling_corr (wcorr : window_correlation) (W : nat)
  (x y : list float) : list float :=
  map (fun i =>
         if (i + 1 <? W)%nat then NaN
         else wcorr (iloc x (i + 1 - W) W) (iloc y (i + 1 - W) W))
      (seq 0 (length x)).

(** The [try] body of lines 133-134: fit the window, read [params[1]]. *)
Definition window_beta (ols : ols_fitter) (x_window y_window : list float)
  : option float :=
  match ols x_window y_window with
  | None => None
  | Some model_window => option_map snd (nth_error (params model_window) 1)
  end.

(** Lines 127-137. *)
Definition rolling_beta (ols : ols_fitter) (inflation gold_returns : list float)
  (window : nat) : list float :=
  let betas :=
    map (fun i =>
           match window_beta ols (iloc inflation i window)
                                 (iloc gold_returns i window) with
           | Some b => b
           | None => NaN
           end)
        (seq 0 (length inflation + 1 - window)) in
  repeat NaN (window - 1) ++ betas.

Record Enriched : Type := mkEnriched {
  obs : Obs;
  Rolling_Corr_12m : float;
  Rolling_Corr_24m : float;
  Rolling_Beta_12m : float
}.

(** Lines 119-139 on a frame with at least one row, which is what reaches
    them: the fit of line 100 raises on an empty frame.  Assigning a Python
    list as a column of such a frame raises ValueError unless it has one
    entry per row: the result is [None] then.  (On a frame without rows
    pandas lets the list define the index instead; that case is not
    represented, and no statement below is about it.) *)
Definition rolling_columns (wcorr : window_correlation) (ols : ols_fitter)
  (df : list Obs) : option (list Enriched) :=
  let c12 := rolling_corr wcorr 12 (col_Inflation_Rate df) (col_Gold_Returns df) in
  let c24 := rolling_corr wcorr 24 (col_Inflation_Rate df) (col_Gold_Returns df) in
  let b12 := rolling_beta ols (col_Inflation_Rate df) (col_Gold_Returns df) 12 in
  if (length b12 =? length df)%nat
  then Some (map (fun t => mkEnriched (fst t) (fst (snd t))
                             (fst (snd (snd t))) (snd (snd (snd t))))
                 (combine df (combine c12 (combine c24 b12))))
  else None.

(* ================================================================== *)
(** * The rest of the script around the statistics *)

(** ** Month arithmetic on the keys *)

(** Months since year 0 of a timestamp, and the day number of the first day
    of the month with a given index. *)
Definition month_index (t : Timestamp) : Z := year t * 12 + (month t - 1).

Definition month_value (k : Z) : Z := days_from_civil (k / 12) (k mod 12 + 1) 1.

(** What the [Date] column holds after [astype("datetime64[M]")]: the first
    day of a calendar month. *)
Definition is_month_start (t : Timestamp) : bool :=
  (day t =? 1) && (1 <=? month t) && (month t <=? 12).

(** ** Price clean-up (lines 33-36) *)

(** [str.replace(",", "", regex=False)] *)
Fixpoint remove_commas (s : string) : string :=
  match s with
  | EmptyString => EmptyString
  | String c rest =>
      if Ascii.eqb c ","%char then remove_commas rest
      else String c (remove_commas rest)
  end.

(** The [Price] column as [read_csv] leaves it: numbers, or text (dtype
    [object]) when some cell does not read as a number. *)
Inductive PriceColumn : Type :=
| NumericPrices (values : list float)
| ObjectPrices (cells : list string).

(** [astype(float)] on a column of strings: one unreadable cell raises. *)
Fixpoint astype_float (to_float : string -> option float) (cells : list string)
  : option (list float) :=
  match cells with
  | [] => Some []
  | c :: rest =>
      match to_float c, astype_float to_float rest with
      | Some x, Some xs => Some (x :: xs)
      | _, _ => None
      end
  end.

(** Lines 33-36.  [to_float] is Python's conversion of a string to a float;
    [None] is its ValueError. *)
Definition clean_prices (to_float : string -> option float) (col : PriceColumn)
  : option (list float) :=
  match col with
  | NumericPrices values => Some values
  | ObjectPrices cells => astype_float to_float (map remove_commas cells)
  end.

(** ** Date range (lines 58 and 264) *)

(** [df['Date'].min()] and [df['Date'].max()] as day numbers; [None] on an
    empty frame, where pandas answers NaT. *)
Definition date_min (df : list Row) : option Z :=
  match keys df with
  | [] => None
  | k :: ks => Some (fold_left Z.min ks k)
  end.

Definition date_max (df : list Row) : option Z :=
  match keys df with
  | [] => None
  | k :: ks => Some (fold_left Z.max ks k)
  end.

(** ** Wording of the findings (lines 113, 273, 278, 283-288) *)

(** [a < b] on floats: false as soon as one side is NaN. *)
Definition flt (a b : float) : bool :=
  match a, b with
  | NaN, _ | _, NaN => false
  | Inf s, Inf s' => s && negb s'
  | Inf s, Fin _ => s
  | Fin _, Inf s => negb s
  | Fin p, Fin q => match Qccompare p q with Lt => true | _ => false end
  end.

(** [abs(a)] *)
Definition fabs (a : float) : float :=
  match a with
  | NaN => NaN
  | Inf _ => Inf false
  | Fin q => Fin (if is_neg q then (- q)%Qc else q)
  end.

(** [-a] *)
Definition fneg (a : float) : float :=
  match a with
  | NaN => NaN
  | Inf s => Inf (negb s)
  | Fin q => Fin (- q)%Qc
  end.

Definition of_Q (q : Q) : float := Fin (Q2Qc q).

(** Line 113. *)
Definition significance (beta_pvalue : float) : string :=
  if flt beta_pvalue (of_Q (1 # 20)) then "(Significant)"
  else "(NOT Significant)".

(** The doubles that the literals [0.3] and [0.6] of line 273 denote:
    5404319552844595 / 2^54 and 5404319552844595 / 2^53, both a little
    below the decimal fractions. *)
Definition literal_0_3 : Q := 5404319552844595 # 18014398509481984.
Definition literal_0_6 : Q := 5404319552844595 # 9007199254740992.

(** Line 273. *)
Definition relationship (corr_coeff : float) : string :=
  if flt (fabs corr_coeff) (of_Q literal_0_3) then "WEAK"
  else if flt (fabs corr_coeff) (of_Q literal_0_6) then "MODERATE"
  else "STRONG".

(** Lines 283-288: the label that opens the line written to the summary. *)
Definition hedge_quality (beta : float) : string :=
  if flt beta (of_Q (1 # 2)) then "WEAK HEDGE"
  else if flt beta one then "PARTIAL HEDGE"
  else "STRONG HEDGE".

(** ** Conditions on frames used below *)

Definition is_nonzero (a : float) : bool :=
  match a with
  | Fin q => negb (is_zero q)
  | _ => false
  end.

(** Every raw value is a finite number other than zero and no other cell is
    missing. *)
Definition clean_frame (df : list Row) : Prop :=
  forallb is_nonzero (map CPI_Combined df) = true
  /\ forallb is_nonzero (map Price df) = true
  /\ forallb (fun r => negb (existsb cell_isna (extra r))) df = true.

(* ================================================================== *)
(** * Sample library behaviours

    Concrete stand-ins for the third-party routines, used to run the
    definitions above on explicit inputs. *)

(** What pandas answers on the one-element series ["01/02/2023"]: the
    day-first format reads 1 February, the other listed formats do not match,
    and the call without format reads month first, 2 January.  Every other
    series is rejected. *)
Definition sample_to_datetime : date_parser :=
  fun fmt raw =>
    match raw with
    | [s] =>
        if String.eqb s "01/02/2023" then
          match fmt with
          | None => Some [mkTimestamp 2023 1 2]
          | Some f =>
              if String.eqb f "%d/%m/%Y" then Some [mkTimestamp 2023 2 1]
              else None
          end
        else None
    | _ => None
    end.

(** What statsmodels answers on three kinds of two-point samples.

    - Distinct regressor values: the line through the two points, R-squared
      1 and, with no residual degree of freedom, missing p-values.
    - Both regressor values 0.0, the responses [-r] and [r] with [r] not
      zero: [add_constant] adds the column of ones, the design has rank one
      and the pseudo-inverse fit returns the mean response 0 as intercept
      and the slope 0.0; the intercept has t statistic 0 and p-value 1, the
      slope has standard error 0 and a missing p-value; R-squared is 0.
    - Both regressor values the same number other than zero, the responses
      [-r] and [r] with [r] not zero: [add_constant] finds a constant
      column already there and adds none, so the model has the single
      coefficient [Inflation_Rate], here 0 with p-value 1; R-squared is 0.

    A sample of any other kind is not in this table and gets [None]. *)
Definition two_point_ols : ols_fitter :=
  fun x y =>
    match x, y with
    | [Fin x1; Fin x2], [Fin y1; Fin y2] =>
        if Qeq_bool x1 x2 then
          if is_zero (y1 + y2)%Qc && negb (is_zero y1) then
            if is_zero x1 then
              Some (mkOLS [("const"%string, of_Z 0); ("Inflation_Rate"%string, of_Z 0)]
                          [("const"%string, one); ("Inflation_Rate"%string, NaN)]
                          (of_Z 0))
            else
              Some (mkOLS [("Inflation_Rate"%string, of_Z 0)]
                          [("Inflation_Rate"%string, one)]
                          (of_Z 0))
          else None
        else
          let b := div (sub (Fin y2) (Fin y1)) (sub (Fin x2) (Fin x1)) in
          let a := sub (Fin y1) (mul b (Fin x1)) in
          Some (mkOLS [("const"%string, a); ("Inflation_Rate"%string, b)]
                      [("const"%string, NaN); ("Inflation_Rate"%string, NaN)]
                      one)
    | _, _ => None
    end.

(** The summary of a fitted model is built for two observations or more and
    raises ValueError for a single one. *)
Definition sample_summary : summary_printer :=
  fun x y => if (length x <=? 1)%nat then None else Some tt.

(** The correlation of a window of two pairs: +1 or -1 by the sign of the
    slope, missing when either coordinate is constant; missing elsewhere. *)
Definition two_point_corr : window_correlation :=
  fun x y =>
    match x, y with
    | [Fin x1; Fin x2], [Fin y1; Fin y2] =>
        let p := ((x2 - x1) * (y2 - y1))%Qc in
        if is_zero p then NaN else if is_neg p then of_Z (-1) else of_Z 1
    | _, _ => NaN
    end.

(** Reading a run of decimal digits as a number; any other text is
    rejected.  It stands for the float conversion on such text. *)
Definition digit_of (c : ascii) : option Z :=
  let n := Z.of_nat (nat_of_ascii c) in
  if (48 <=? n) && (n <=? 57) then Some (n - 48) else None.

Fixpoint digits_value (acc : Z) (s : string) : option Z :=
  match s with
  | EmptyString => Some acc
  | String c rest =>
      match digit_of c with
      | Some d => digits_value (acc * 10 + d) rest
      | None => None
      end
  end.

Definition digits_to_float (s : string) : option float :=
  match s with
  | EmptyString => None
  | _ => option_map of_Z (digits_value 0 s)
  end.

(* ================================================================== *)
(** * Sample inputs *)

Definition jan23 : Timestamp := mkTimestamp 2023 1 1.
Definition feb23 : Timestamp := mkTimestamp 2023 2 1.
Definition mar23 : Timestamp := mkTimestamp 2023 3 1.

(** Three months of prices and index values, the gold rows out of order. *)
Definition sample_gold : list GoldRow :=
  [mkGold mar23 (of_Z 99) []; mkGold jan23 (of_Z 100) []; mkGold feb23 (of_Z 110) []].

Definition sample_cpi : list CpiRow :=
  [mkCpi jan23 (of_Z 100) []; mkCpi feb23 (of_Z 102) []; mkCpi mar23 (of_Z 103) []].

(** Two gold quotes of January 2023 (the 5th and the 20th), brought to their
    month start, against one index value for that month. *)
Definition twice_january_gold : list GoldRow :=
  [mkGold (month_start (mkTimestamp 2023 1 5)) (of_Z 100) [];
   mkGold (month_start (mkTimestamp 2023 1 20)) (of_Z 101) []].

Definition january_cpi : list CpiRow := [mkCpi jan23 (of_Z 150) []].

(** Two-row frames whose dates are 70 days and 31 days apart. *)
Definition gap_70_days : list Row :=
  [mkRow jan23 (of_Z 100) (of_Z 100) [];
   mkRow (mkTimestamp 2023 3 12) (of_Z 101) (of_Z 101) []].

Definition gap_31_days : list Row :=
  [mkRow jan23 (of_Z 100) (of_Z 100) []; mkRow feb23 (of_Z 101) (of_Z 101) []].

(** An index series that falls to zero and recovers, prices steady. *)
Definition zero_index : list Row :=
  [mkRow jan23 (of_Z 50) (of_Z 100) [];
   mkRow feb23 (of_Z 50) (of_Z 0) [];
   mkRow mar23 (of_Z 50) (of_Z 5) []].

(** An index series that falls to zero and stays there. *)
Definition stuck_at_zero : list Row :=
  [mkRow jan23 (of_Z 50) (of_Z 100) [];
   mkRow feb23 (of_Z 50) (of_Z 0) [];
   mkRow mar23 (of_Z 50) (of_Z 0) []].

(** Inflation and return columns of three observations; the first two
    inflation values coincide. *)
Definition flat_then_rising : list float := [of_Z 1; of_Z 1; of_Z 2].
Definition three_returns : list float := [of_Z (-1); of_Z 1; of_Z 3].

(** Two months without inflation, then one percent. *)
Definition no_inflation_then_rising : list float := [of_Z 0; of_Z 0; of_Z 1].

(** An index value not reported for February, and an index column that
    holds an infinite value there. *)
Definition february_index_missing : list Row :=
  [mkRow jan23 (of_Z 100) (of_Z 100) [];
   mkRow feb23 (of_Z 110) NaN [];
   mkRow mar23 (of_Z 121) (of_Z 150) []].

Definition february_index_infinite : list Row :=
  [mkRow jan23 (of_Z 100) (of_Z 100) [];
   mkRow feb23 (of_Z 110) (Inf false) [];
   mkRow mar23 (of_Z 121) (of_Z 150) []].

(** Three complete months, the traded volume of February not reported. *)
Definition volume_not_reported : list Row :=
  [mkRow jan23 (of_Z 100) (of_Z 100) [Number (of_Z 7)];
   mkRow feb23 (of_Z 110) (of_Z 102) [Missing];
   mkRow mar23 (of_Z 99) (of_Z 103) [Number (of_Z 9)]].

(** An index series that starts a year after the gold sample ends. *)
Definition january_2024_cpi : list CpiRow :=
  [mkCpi (mkTimestamp 2024 1 1) (of_Z 150) []].

(** Monthly rows with February 2023 absent. *)
Definition february_missing : list Row :=
  [mkRow jan23 (of_Z 100) (of_Z 100) []; mkRow mar23 (of_Z 99) (of_Z 103) []].

(** Four months with the gold price unchanged. *)
Definition steady_price : list Row :=
  [mkRow jan23 (of_Z 60000) (of_Z 100) [];
   mkRow feb23 (of_Z 60000) (of_Z 102) [];
   mkRow mar23 (of_Z 60000) (of_Z 103) [];
   mkRow (mkTimestamp 2023 4 1) (of_Z 60000) (of_Z 105) []].


(** Twelve monthly observations of 2023. *)
Definition year_of_observations : list Obs :=
  map (fun i =>
         mkObs (mkRow (mkTimestamp 2023 (Z.of_nat i + 1) 1)
                      (of_Z (60000 + Z.of_nat i)) (of_Z (100 + Z.of_nat i)) [])
               (of_Z (Z.of_nat i)) (of_Z (Z.of_nat (i * i))))
      (seq 0 12).

(** Prices written with Indian digit grouping. *)
Definition grouped_prices : PriceColumn :=
  ObjectPrices ["60,000"; "1,23,456"; "59000"]%string.

(* ================================================================== *)
(** * Properties of the merge *)

Section MergeFacts.

Lemma in_merge_keys (df_gold : list GoldRow) (df_cpi : list CpiRow) (k : Z) :
  In k (keys (merge df_gold df_cpi)) <->
  In k (gold_keys df_gold) /\ In k (cpi_keys df_cpi).
Proof.
  unfold keys, gold_keys, cpi_keys, merge.
  rewrite !in_map_iff. split.
  - intros [r [Hk Hr]]. apply in_flat_map in Hr as [g [Hg Hr]].
    apply in_map_iff in Hr as [c [Hc Hin]].
    apply filter_In in Hin as [Hin Hsame].
    unfold same_date in Hsame. apply Z.eqb_eq in Hsame.
    subst r. simpl in Hk. split.
    + exists g. now split.
    + exists c. split; [congruence | assumption].
  - intros [[g [Hg Hing]] [c [Hc Hinc]]].
    exists (mkRow (gold_Date g) (gold_Price g) (cpi_CPI_Combined c)
                         (gold_extra g ++ cpi_extra c)).
    split; [exact Hg |].
    apply in_flat_map. exists g. split; [assumption |].
    apply in_map_iff. exists c. split; [reflexivity |].
    apply filter_In. split; [assumption |].
    unfold same_date. apply Z.eqb_eq. congruence.
Qed.

Lemma insert_by_date_perm (r : Row) (l : list Row) :
  Permutation (r :: l) (insert_by_date r l).
Proof.
  induction l as [| r' l IH]; simpl.
  - apply Permutation_refl.
  - destruct (value (Date r) <=? value (Date r')).
    + apply Permutation_refl.
    + eapply perm_trans; [apply perm_swap |]. now apply perm_skip.
Qed.

Lemma sort_values_perm (df : list Row) : Permutation df (sort_values df).
Proof.
  induction df as [| r df IH]; simpl.
  - constructor.
  - eapply perm_trans; [apply perm_skip, IH | apply insert_by_date_perm].
Qed.

Lemma in_keys_sort_values (df : list Row) (k : Z) :
  In k (keys (sort_values df)) <-> In k (keys df).
Proof.
  unfold keys. split; apply Permutation_in, Permutation_map.
  - apply Permutation_sym, sort_values_perm.
  - apply sort_values_perm.
Qed.

Lemma insert_by_date_sorted (r : Row) (l : list Row) :
  Sorted Z.le (keys l) -> Sorted Z.le (keys (insert_by_date r l)).
Proof.
  induction l as [| r' l IH]; simpl; intros Hs.
  - repeat constructor.
  - destruct (value (Date r) <=? value (Date r')) eqn:E.
    + simpl. constructor; [exact Hs |]. constructor.
      now apply Z.leb_le in E.
    + apply Z.leb_gt in E. simpl.
      inversion Hs as [| ? ? Hs' Hhd]; subst.
      constructor; [now apply IH |].
      destruct l as [| r'' l]; simpl.
      * constructor. lia.
      * destruct (value (Date r) <=? value (Date r'')); simpl; constructor.
        -- lia.
        -- now inversion Hhd.
Qed.

Lemma sort_values_sorted (df : list Row) : Sorted Z.le (keys (sort_values df)).
Proof.
  induction df as [| r df IH]; simpl.
  - constructor.
  - now apply insert_by_date_sorted.
Qed.

(** At most one entry of a duplicate-free key column matches a given key. *)
Lemma matches_at_most_one (df_cpi : list CpiRow) (t : Timestamp) :
  NoDup (cpi_keys df_cpi) ->
  (length (filter (fun c => same_date t (cpi_Date c)) df_cpi) <= 1)%nat.
Proof.
  unfold cpi_keys, same_date.
  induction df_cpi as [| c l IH]; simpl; intros Hnd; [lia |].
  inversion Hnd as [| ? ? Hnotin Hnd']; subst.
  destruct (value t =? value (cpi_Date c)) eqn:E; simpl.
  - apply Z.eqb_eq in E.
    assert (Hempty : filter (fun c0 => value t =? value (cpi_Date c0)) l = []).
    { destruct (filter (fun c0 => value t =? value (cpi_Date c0)) l)
        as [| c' l'] eqn:F; [reflexivity |].
      exfalso. assert (Hin : In c' (c' :: l')) by now left.
      rewrite <- F in Hin. apply filter_In in Hin as [Hin Hk].
      apply Z.eqb_eq in Hk. apply Hnotin. apply in_map_iff.
      exists c'. split; [congruence | assumption]. }
    rewrite Hempty. simpl. lia.
  - now apply IH.
Qed.

Lemma merge_keys_nodup (df_gold : list GoldRow) (df_cpi : list CpiRow) :
  NoDup (gold_keys df_gold) -> NoDup (cpi_keys df_cpi) ->
  NoDup (keys (merge df_gold df_cpi)).
Proof.
  intros Hg Hc. induction df_gold as [| g l IH].
  - constructor.
  - inversion Hg as [| ? ? Hnotin Hg']; subst.
    change (merge (g :: l) df_cpi)
      with (map (fun c => mkRow (gold_Date g) (gold_Price g) (cpi_CPI_Combined c)
                         (gold_extra g ++ cpi_extra c))
                (filter (fun c => same_date (gold_Date g) (cpi_Date c)) df_cpi)
            ++ merge l df_cpi).
    pose proof (matches_at_most_one df_cpi (gold_Date g) Hc) as Hone.
    destruct (filter (fun c => same_date (gold_Date g) (cpi_Date c)) df_cpi)
      as [| c [| c' rest]]; simpl in *.
    + now apply IH.
    + constructor; [| now apply IH].
      intros Hin. apply in_merge_keys in Hin as [Hin _]. now apply Hnotin.
    + lia.
Qed.

Lemma sorted_nodup_strict (l : list Z) :
  Sorted Z.le l -> NoDup l -> StronglySorted Z.lt l.
Proof.
  intros Hs Hnd.
  apply Sorted_StronglySorted in Hs; [| intros x y z; lia].
  induction l as [| a l IH]; [constructor |].
  inversion Hs as [| ? ? Hs' Hall]; subst.
  inversion Hnd as [| ? ? Hnotin Hnd']; subst.
  constructor; [now apply IH |].
  rewrite Forall_forall in *. intros x Hx.
  specialize (Hall x Hx).
  assert (a <> x) by (intros ->; contradiction). lia.
Qed.

(** A strictly increasing list is determined by its set of elements. *)
Lemma strict_sorted_unique (l1 l2 : list Z) :
  StronglySorted Z.lt l1 -> StronglySorted Z.lt l2 ->
  (forall k, In k l1 <-> In k l2) -> l1 = l2.
Proof.
  revert l2. induction l1 as [| a l1 IH]; intros l2 H1 H2 Hsame.
  - destruct l2 as [| b l2]; [reflexivity |].
    exfalso. apply (proj2 (Hsame b)). now left.
  - destruct l2 as [| b l2].
    + exfalso. apply (proj1 (Hsame a)). now left.
    + inversion H1 as [| ? ? H1' Ha]; subst.
      inversion H2 as [| ? ? H2' Hb]; subst.
      rewrite Forall_forall in Ha, Hb.
      assert (a = b).
      { destruct (proj1 (Hsame a) (or_introl eq_refl)) as [-> | Hin]; [reflexivity |].
        destruct (proj2 (Hsame b) (or_introl eq_refl)) as [-> | Hin']; [reflexivity |].
        specialize (Ha _ Hin'). specialize (Hb _ Hin). lia. }
      subst b. f_equal. apply IH; try assumption.
      intros k. split; intros Hk.
      * destruct (proj1 (Hsame k) (or_intror Hk)) as [-> | ?]; [| assumption].
        specialize (Ha _ Hk). lia.
      * destruct (proj2 (Hsame k) (or_intror Hk)) as [-> | ?]; [| assumption].
        specialize (Hb _ Hk). lia.
Qed.

End MergeFacts.

(** Keys of the merged frame in general: the common keys, ascending. *)
Lemma merged_keys_common_sorted (df_gold : list GoldRow) (df_cpi : list CpiRow) :
  (forall k, In k (keys (merged df_gold df_cpi)) <->
             In k (gold_keys df_gold) /\ In k (cpi_keys df_cpi))
  /\ Sorted Z.le (keys (merged df_gold df_cpi)).
Proof.
  split.
  - intros k. unfold merged. rewrite in_keys_sort_values. apply in_merge_keys.
  - apply sort_values_sorted.
Qed.

(** C1 (as amended): when no month key occurs twice within either input
    series, the merged and sorted frame holds exactly the month keys present
    in both series, in strictly increasing order and without duplicates, and
    its key column does not depend on the order of the input rows. *)
Theorem merged_keys_strictly_increasing
  (df_gold : list GoldRow) (df_cpi : list CpiRow) :
  NoDup (gold_keys df_gold) -> NoDup (cpi_keys df_cpi) ->
  (forall k, In k (keys (merged df_gold df_cpi)) <->
             In k (gold_keys df_gold) /\ In k (cpi_keys df_cpi))
  /\ Sorted Z.le (keys (merged df_gold df_cpi))
  /\ StronglySorted Z.lt (keys (merged df_gold df_cpi))
  /\ NoDup (keys (merged df_gold df_cpi))
  /\ (forall df_gold' df_cpi',
        Permutation df_gold df_gold' -> Permutation df_cpi df_cpi' ->
        keys (merged df_gold' df_cpi') = keys (merged df_gold df_cpi)).
Proof.
  intros Hg Hc.
  assert (Hstrict : forall g c, NoDup (gold_keys g) -> NoDup (cpi_keys c) ->
            NoDup (keys (merged g c)) /\ StronglySorted Z.lt (keys (merged g c))).
  { intros g c Hg' Hc'.
    assert (Hnd : NoDup (keys (merged g c))).
    { unfold merged, keys.
      eapply Permutation_NoDup;
        [apply Permutation_map, sort_values_perm | now apply merge_keys_nodup]. }
    split; [exact Hnd |].
    apply sorted_nodup_strict; [apply sort_values_sorted | exact Hnd]. }
  destruct (merged_keys_common_sorted df_gold df_cpi) as [Hin Hsorted].
  destruct (Hstrict _ _ Hg Hc) as [Hnd Hlt].
  repeat split; try assumption; try (now apply Hin).
  intros g' c' Pg Pc.
  assert (Hg' : NoDup (gold_keys g')).
  { eapply Permutation_NoDup; [apply Permutation_map, Pg | exact Hg]. }
  assert (Hc' : NoDup (cpi_keys c')).
  { eapply Permutation_NoDup; [apply Permutation_map, Pc | exact Hc]. }
  destruct (Hstrict _ _ Hg' Hc') as [_ Hlt'].
  apply strict_sorted_unique; try assumption.
  intros k.
  rewrite (proj1 (merged_keys_common_sorted g' c') k), Hin.
  unfold gold_keys, cpi_keys.
  split; intros [A B]; split.
  - eapply Permutation_in; [apply Permutation_sym, Permutation_map, Pg | exact A].
  - eapply Permutation_in; [apply Permutation_sym, Permutation_map, Pc | exact B].
  - eapply Permutation_in; [apply Permutation_map, Pg | exact A].
  - eapply Permutation_in; [apply Permutation_map, Pc | exact B].
Qed.

Lemma merged_keys_strictly_increasing_witness :
  NoDup (gold_keys sample_gold) /\ NoDup (cpi_keys sample_cpi)
  /\ StronglySorted Z.lt (keys (merged sample_gold sample_cpi)).
Proof.
  assert (Hg : NoDup (gold_keys sample_gold)).
  { repeat constructor; simpl; intuition discriminate. }
  assert (Hc : NoDup (cpi_keys sample_cpi)).
  { repeat constructor; simpl; intuition discriminate. }
  split; [exact Hg |]. split; [exact Hc |].
  exact (proj1 (proj2 (proj2
           (merged_keys_strictly_increasing sample_gold sample_cpi Hg Hc)))).
Defined.

(** C1 as stated fails: two gold observations of the same month are both
    joined to that month's index row, so the merged frame repeats the key. *)
Lemma merged_keys_repeat_on_duplicate_month :
  keys (merged twice_january_gold january_cpi) = [19358; 19358]
  /\ ~ NoDup (keys (merged twice_january_gold january_cpi))
  /\ ~ StronglySorted Z.lt (keys (merged twice_january_gold january_cpi)).
Proof.
  assert (E : keys (merged twice_january_gold january_cpi) = [19358; 19358])
    by reflexivity.
  rewrite E. split; [reflexivity |]. split.
  - intros H. inversion H as [| ? ? Hnotin _]; subst. apply Hnotin. now left.
  - intros H. inversion H as [| ? ? _ Hall]; subst.
    inversion Hall as [| ? ? Hlt _]; subst. lia.
Qed.

(* ================================================================== *)
(** * Properties of the gap check *)

Lemma successive_gap (prev : Timestamp) (rest : list Timestamp) :
  existsb (fun d => 50 <? d) (dropna_days (successive_days prev rest)) = true <->
  exists i a b,
    nth_error (prev :: rest) i = Some a /\
    nth_error (prev :: rest) (S i) = Some b /\
    50 < value b - value a.
Proof.
  revert prev. induction rest as [| cur rest IH]; intros prev.
  - simpl. split; [discriminate |].
    intros [i [a [b [_ [Hb _]]]]]. destruct i; discriminate.
  - simpl successive_days. simpl dropna_days. simpl existsb.
    rewrite orb_true_iff, IH. split.
    + intros [Hhere | [i [a [b [Ha [Hb Hgap]]]]]].
      * exists 0%nat, prev, cur. apply Z.ltb_lt in Hhere. now repeat split.
      * exists (S i), a, b. now repeat split.
    + intros [i [a [b [Ha [Hb Hgap]]]]]. destruct i as [| i].
      * left. simpl in Ha, Hb. injection Ha as <-. injection Hb as <-.
        now apply Z.ltb_lt.
      * right. exists i, a, b. now repeat split.
Qed.

Lemma gap_detected_iff (df : list Row) :
  gap_detected df = true <->
  exists i a b,
    nth_error df i = Some a /\ nth_error df (S i) = Some b /\
    50 < value (Date b) - value (Date a).
Proof.
  unfold gap_detected. destruct df as [| r df].
  - simpl. split; [discriminate |].
    intros [i [a [b [Ha _]]]]. destruct i; discriminate.
  - simpl map. unfold diff_days. simpl dropna_days.
    rewrite successive_gap.
    change (Date r :: map Date df) with (map Date (r :: df)).
    split; intros [i [a [b [Ha [Hb Hgap]]]]].
    + rewrite nth_error_map in Ha, Hb.
      destruct (nth_error (r :: df) i) as [ra |] eqn:Ea; [| discriminate].
      destruct (nth_error (r :: df) (S i)) as [rb |] eqn:Eb; [| discriminate].
      injection Ha as <-. injection Hb as <-.
      exists i, ra, rb. now repeat split.
    + exists i, (Date a), (Date b). rewrite !nth_error_map, Ha, Hb.
      now repeat split.
Qed.

(** C8: the gap check prints the warning exactly when two consecutive rows
    are more than 50 days apart; a 70-day step gives the warning, steps of 31
    days give the other message; either way the frame goes on unchanged. *)
Theorem gap_warning_iff_large_step (df : list Row) :
  (snd (check_gaps df) = gap_warning <->
   exists i a b,
     nth_error df i = Some a /\ nth_error df (S i) = Some b /\
     50 < value (Date b) - value (Date a))
  /\ (forall i a b,
        nth_error df i = Some a -> nth_error df (S i) = Some b ->
        value (Date b) - value (Date a) = 70 ->
        snd (check_gaps df) = gap_warning)
  /\ ((forall i a b,
         nth_error df i = Some a -> nth_error df (S i) = Some b ->
         value (Date b) - value (Date a) = 31) ->
      snd (check_gaps df) = gap_ok)
  /\ fst (check_gaps df) = df.
Proof.
  assert (Hiff : snd (check_gaps df) = gap_warning <-> gap_detected df = true).
  { unfold check_gaps. simpl. destruct (gap_detected df); split; intros H;
      try reflexivity; discriminate. }
  split; [| split; [| split]].
  - rewrite Hiff. apply gap_detected_iff.
  - intros i a b Ha Hb Hgap. apply Hiff, gap_detected_iff.
    exists i, a, b. repeat split; try assumption. lia.
  - intros Hall. unfold check_gaps. simpl.
    destruct (gap_detected df) eqn:E; [| reflexivity].
    apply gap_detected_iff in E as [i [a [b [Ha [Hb Hgap]]]]].
    specialize (Hall i a b Ha Hb). lia.
  - reflexivity.
Qed.

Lemma gap_warning_iff_large_step_witness :
  snd (check_gaps gap_70_days) = gap_warning
  /\ snd (check_gaps gap_31_days) = gap_ok.
Proof.
  split.
  - apply (proj1 (proj2 (gap_warning_iff_large_step gap_70_days))
             0%nat (mkRow jan23 (of_Z 100) (of_Z 100) [])
             (mkRow (mkTimestamp 2023 3 12) (of_Z 101) (of_Z 101) []));
      reflexivity.
  - apply (proj1 (proj2 (proj2 (gap_warning_iff_large_step gap_31_days)))).
    intros i a b Ha Hb.
    destruct i as [| [| i]]; simpl in Ha, Hb; try discriminate.
    injection Ha as <-. injection Hb as <-. reflexivity.
Defined.

(* ================================================================== *)
(** * Properties of the percentage changes *)

Section ReturnFacts.

Lemma is_zero_eq (q : Qc) : is_zero q = true -> q = 0%Qc.
Proof.
  unfold is_zero. intros H. apply Qeq_bool_iff in H. now apply Qc_is_canon.
Qed.

Lemma is_zero_neq (q : Qc) : is_zero q = false -> q <> 0%Qc.
Proof.
  unfold is_zero. intros H E. subst q. discriminate H.
Qed.

(** In the exact arithmetic of this model the quotient form pandas
    evaluates and the difference form agree on finite values, a zero
    denominator included.  (On doubles the two forms can differ in the last
    digits; the statements below use the quotient form.) *)
Lemma pct_formula (a b : Qc) :
  mul (sub (div (Fin b) (Fin a)) one) hundred =
  mul (div (sub (Fin b) (Fin a)) (Fin a)) hundred.
Proof.
  unfold one, hundred, of_Z. simpl.
  destruct (is_zero a) eqn:Ea.
  - apply is_zero_eq in Ea. subst a.
    replace (b - 0)%Qc with b by ring.
    destruct (is_zero b); reflexivity.
  - apply is_zero_neq in Ea. simpl. f_equal.
    change (Q2Qc (inject_Z 1)) with 1%Qc. field. exact Ea.
Qed.

(** They agree as well on missing and infinite current values, as long as
    the previous value is not infinite. *)
Lemma pct_formula_general (a b : float) :
  is_inf a = false ->
  mul (sub (div b a) one) hundred = mul (div (sub b a) a) hundred.
Proof.
  intros Ha. destruct a as [| sa | a]; [| discriminate |].
  - now destruct b.
  - destruct b as [| sb | b]; [reflexivity | | apply pct_formula].
    unfold one, hundred, of_Z. simpl. reflexivity.
Qed.


Lemma nth_error_pair {A B : Type} (l1 : list A) (l2 : list B) i a b :
  nth_error l1 i = Some a -> nth_error l2 i = Some b ->
  nth_error (combine l1 l2) i = Some (a, b).
Proof.
  revert l2 i. induction l1 as [| x l1 IH]; intros l2 i H1 H2.
  - destruct i; discriminate.
  - destruct l2 as [| y l2]; [destruct i; discriminate |].
    destruct i as [| i]; simpl in *.
    + congruence.
    + now apply IH.
Qed.

Lemma combine_removelast_nth (x : float) (rest : list float) j a b :
  nth_error (x :: rest) j = Some a -> nth_error rest j = Some b ->
  nth_error (combine rest (removelast (x :: rest))) j = Some (b, a).
Proof.
  revert x j. induction rest as [| y r IH]; intros x j Ha Hb.
  - destruct j; discriminate.
  - change (removelast (x :: y :: r)) with (x :: removelast (y :: r)).
    destruct j as [| j]; simpl in *.
    + congruence.
    + now apply IH.
Qed.

Lemma combine_shift_nth (xs : list float) j a b :
  nth_error xs j = Some a -> nth_error xs (S j) = Some b ->
  nth_error (combine xs (shift xs)) (S j) = Some (b, a).
Proof.
  destruct xs as [| x rest]; [destruct j; discriminate |].
  intros Ha Hb. unfold shift.
  change (combine (x :: rest) (NaN :: removelast (x :: rest)))
    with ((x, NaN) :: combine rest (removelast (x :: rest))).
  simpl nth_error. now apply combine_removelast_nth.
Qed.

Lemma ffill_from_no_nan (last : float) (xs : list float) :
  forallb (fun x => negb (isna x)) xs = true -> ffill_from last xs = xs.
Proof.
  revert last. induction xs as [| x xs IH]; intros last H; [reflexivity |].
  simpl in *. apply andb_true_iff in H as [Hx Hxs].
  destruct (isna x); [discriminate |]. f_equal. now apply IH.
Qed.

Lemma ffill_from_length (last : float) (xs : list float) :
  length (ffill_from last xs) = length xs.
Proof.
  revert last. induction xs as [| x xs IH]; intros last; [reflexivity |].
  simpl. destruct (isna x); simpl; now rewrite IH.
Qed.

Lemma shift_length (xs : list float) : length (shift xs) = length xs.
Proof.
  destruct xs as [| x xs]; [reflexivity |].
  unfold shift. cbn [length].
  rewrite (removelast_firstn_len (x :: xs)), length_firstn. simpl. lia.
Qed.

Lemma pct_change_length (pad : bool) (xs : list float) :
  length (pct_change pad xs) = length xs.
Proof.
  unfold pct_change. rewrite length_map, length_combine, shift_length.
  destruct pad; [unfold ffill; rewrite ffill_from_length |]; lia.
Qed.

(** Entry [j+1] of the change column, from entries [j] and [j+1] of a
    column without missing values. *)
Lemma pct_change_nth (pad : bool) (xs : list float) j a b :
  (pad = true -> forallb (fun x => negb (isna x)) xs = true) ->
  nth_error xs j = Some a -> nth_error xs (S j) = Some b ->
  nth_error (percent (pct_change pad xs)) (S j)
  = Some (mul (sub (div b a) one) hundred).
Proof.
  intros Hna Ha Hb. unfold percent, pct_change.
  assert (E : (if pad then ffill xs else xs) = xs).
  { destruct pad; [| reflexivity]. apply ffill_from_no_nan. now apply Hna. }
  rewrite E, !nth_error_map, (combine_shift_nth xs j a b Ha Hb). reflexivity.
Qed.

(** The first entry of the change column is always missing. *)
Lemma pct_change_head (pad : bool) (x : float) (xs : list float) :
  exists rest, percent (pct_change pad (x :: xs)) = NaN :: rest.
Proof.
  unfold percent, pct_change.
  assert (E : exists d ds, (if pad then ffill (x :: xs) else x :: xs) = d :: ds).
  { destruct pad; [| now eauto]. unfold ffill. simpl.
    destruct (isna x); eauto. }
  destruct E as [d [ds ->]]. unfold shift.
  change (combine (d :: ds) (NaN :: removelast (d :: ds)))
    with ((d, NaN) :: combine ds (removelast (d :: ds))).
  simpl. destruct d; simpl; eauto.
Qed.

Lemma with_returns_length (pad : bool) (df : list Row) :
  length (with_returns pad df) = length df.
Proof.
  unfold with_returns, percent.
  rewrite length_map, !length_combine, !length_map, !pct_change_length,
    !length_map. lia.
Qed.

Lemma map_fst_combine_same_length {A B : Type} (l1 : list A) (l2 : list B) :
  length l1 = length l2 -> map fst (combine l1 l2) = l1.
Proof.
  revert l2. induction l1 as [| a l1 IH]; intros [| b l2] H;
    simpl in *; try reflexivity; try discriminate.
  f_equal. apply IH. now injection H.
Qed.

(** The annotated frame has the rows of the merged frame, in order. *)
Lemma with_returns_base (pad : bool) (df : list Row) :
  map base (with_returns pad df) = df.
Proof.
  unfold with_returns. rewrite map_map. cbn [base].
  change (fun x : Row * (float * float) => fst x) with (@fst Row (float * float)).
  apply map_fst_combine_same_length.
  unfold percent.
  now rewrite length_combine, !length_map, !pct_change_length, !length_map,
    Nat.min_id.
Qed.

Lemma with_returns_head (pad : bool) (r : Row) (df : list Row) :
  exists rest, with_returns pad (r :: df) = mkObs r NaN NaN :: rest.
Proof.
  unfold with_returns. simpl map at 2 3.
  destruct (pct_change_head pad (CPI_Combined r) (map CPI_Combined df)) as [ci ->].
  destruct (pct_change_head pad (Price r) (map Price df)) as [pi ->].
  simpl. eauto.
Qed.

Lemma with_returns_nth (pad : bool) (df : list Row) i prev cur :
  (pad = true -> no_missing df) ->
  nth_error df i = Some prev -> nth_error df (S i) = Some cur ->
  nth_error (with_returns pad df) (S i)
  = Some (mkObs cur
            (mul (sub (div (CPI_Combined cur) (CPI_Combined prev)) one) hundred)
            (mul (sub (div (Price cur) (Price prev)) one) hundred)).
Proof.
  intros Hpad Hprev Hcur. unfold with_returns.
  assert (Hc : pad = true ->
               forallb (fun x => negb (isna x)) (map CPI_Combined df) = true)
    by (intros E; apply (Hpad E)).
  assert (Hp : pad = true ->
               forallb (fun x => negb (isna x)) (map Price df) = true)
    by (intros E; apply (Hpad E)).
  rewrite nth_error_map.
  rewrite (nth_error_pair _ _ (S i) cur
             (mul (sub (div (CPI_Combined cur) (CPI_Combined prev)) one) hundred,
              mul (sub (div (Price cur) (Price prev)) one) hundred));
    [reflexivity | exact Hcur |].
  apply nth_error_pair.
  - apply pct_change_nth with (j := i); [exact Hc | |];
      rewrite nth_error_map; [rewrite Hprev | rewrite Hcur]; reflexivity.
  - apply pct_change_nth with (j := i); [exact Hp | |];
      rewrite nth_error_map; [rewrite Hprev | rewrite Hcur]; reflexivity.
Qed.

Lemma returns_skip_first (pad : bool) (df : list Row) :
  returns pad df = dropna (tl (with_returns pad df)).
Proof.
  unfold returns. destruct df as [| r df]; [reflexivity |].
  destruct (with_returns_head pad r df) as [rest ->].
  unfold dropna. cbn [filter tl]. unfold has_na at 1. cbn [Inflation_Rate isna].
  now rewrite orb_true_r.
Qed.

End ReturnFacts.



Lemma no_cell_missing_iff (cells : list cell) :
  existsb cell_isna cells = false <->
  forall c, In c cells -> cell_isna c = false.
Proof.
  induction cells as [| c cells IH]; simpl.
  - split; [intros _ c [] | reflexivity].
  - rewrite orb_false_iff, IH. split.
    + intros [Hc Hall] c' [<- | Hin]; [assumption | now apply Hall].
    + intros H. split; [apply H; now left |].
      intros c' Hin. apply H. now right.
Qed.

Lemma no_cell_missing_forallb (cells : list cell) :
  negb (existsb cell_isna cells) = forallb (fun c => negb (cell_isna c)) cells.
Proof.
  induction cells as [| c cells IH]; simpl; [reflexivity |].
  now rewrite negb_orb, IH.
Qed.

Lemma returns_complete (pad : bool) (df : list Row) (o : Obs) :
  In o (returns pad df) <->
  In o (with_returns pad df)
  /\ isna (Price (base o)) = false
  /\ isna (CPI_Combined (base o)) = false
  /\ existsb cell_isna (extra (base o)) = false
  /\ isna (Inflation_Rate o) = false
  /\ isna (Gold_Returns o) = false.
Proof.
  unfold returns, dropna, has_na. rewrite filter_In, negb_true_iff.
  rewrite !orb_false_iff. tauto.
Qed.

(** C5 as stated fails.  With the index value of February missing, pandas
    before 3.0 pads it with the value of January before taking changes: the
    row of March gets the rate 150 / 100 - 1, that is 50, measured against
    January and not against the row just before it, and it stays in the
    result; the formula of the claim gives a missing rate there.  With an
    infinite index value in February the row of March gets 150 / inf - 1,
    that is -100, with or without padding, where the formula of the claim
    gives a missing rate again. *)
Lemma rate_is_not_always_against_the_previous_row :
  option_map (fun o => same (Inflation_Rate o) (of_Z 50))
    (nth_error (with_returns true february_index_missing) 2) = Some true
  /\ map (fun o => value (Date (base o))) (returns true february_index_missing)
     = [value mar23]
  /\ isna (mul (div (sub (of_Z 150) NaN) NaN) hundred) = true
  /\ (forall pad,
        option_map (fun o => same (Inflation_Rate o) (of_Z (-100)))
          (nth_error (with_returns pad february_index_infinite) 2) = Some true
        /\ length (returns pad february_index_infinite) = 2%nat)
  /\ isna (mul (div (sub (of_Z 150) (Inf false)) (Inf false)) hundred) = true.
Proof.
  split; [reflexivity |]. split; [reflexivity |]. split; [reflexivity |].
  split; [| reflexivity].
  intros pad. destruct pad; split; reflexivity.
Qed.

(** C5 (as amended): on a merged frame without missing raw values (they
    matter only where pandas pads before taking changes), every row from
    the second on gets, for the index and for the price, (current /
    previous - 1) * 100 against the row just before it, evaluated in that
    order; the first row is left out of the result, which is built from rows
    two onward and holds no row with a missing rate. *)
Theorem returns_are_percentage_changes (pad : bool) (df : list Row) :
  (pad = true -> no_missing df) ->
  (forall i prev cur,
      nth_error df i = Some prev -> nth_error df (S i) = Some cur ->
      nth_error (with_returns pad df) (S i)
      = Some (mkObs cur
                (mul (sub (div (CPI_Combined cur) (CPI_Combined prev)) one) hundred)
                (mul (sub (div (Price cur) (Price prev)) one) hundred)))
  /\ map base (with_returns pad df) = df
  /\ returns pad df = dropna (tl (with_returns pad df))
  /\ Forall (fun o => isna (Inflation_Rate o) = false
                      /\ isna (Gold_Returns o) = false) (returns pad df)
  /\ (length (returns pad df) <= length df - 1)%nat.
Proof.
  intros Hpad. split; [| split; [apply with_returns_base |]].
  2: split; [| split].
  - intros i prev cur Hprev Hcur.
    exact (with_returns_nth pad df i prev cur Hpad Hprev Hcur).
  - apply returns_skip_first.
  - apply Forall_forall. intros o Ho. apply returns_complete in Ho. tauto.
  - rewrite returns_skip_first. unfold dropna.
    eapply Nat.le_trans; [apply filter_length_le |].
    pose proof (with_returns_length pad df) as L.
    destruct (with_returns pad df); simpl in *; lia.
Qed.

Lemma returns_are_percentage_changes_witness :
  no_missing (merged sample_gold sample_cpi)
  /\ length (returns true (merged sample_gold sample_cpi)) = 2%nat
  /\ option_map (fun o => same (Gold_Returns o) (of_Z 10))
       (nth_error (with_returns true (merged sample_gold sample_cpi)) 1)
     = Some true.
Proof.
  assert (Hmiss : no_missing (merged sample_gold sample_cpi)).
  { split; reflexivity. }
  split; [exact Hmiss |]. split; [reflexivity |].
  rewrite (proj1 (returns_are_percentage_changes true
                    (merged sample_gold sample_cpi) (fun _ => Hmiss))
             0%nat (mkRow jan23 (of_Z 100) (of_Z 100) [])
                   (mkRow feb23 (of_Z 110) (of_Z 102) []) eq_refl eq_refl).
  reflexivity.
Defined.




(** C10: [dropna] keeps, in their order, exactly the rows of the annotated
    frame in which the price, the index, the two rates and every other cell
    are present; a row is removed for a missing value wherever it stands, not
    only at the head. *)
Theorem dropna_keeps_exactly_the_complete_rows (pad : bool) (df : list Row) :
  returns pad df
  = filter (fun o => negb (isna (Price (base o)))
                     && negb (isna (CPI_Combined (base o)))
                     && forallb (fun c => negb (cell_isna c)) (extra (base o))
                     && negb (isna (Inflation_Rate o))
                     && negb (isna (Gold_Returns o)))
           (with_returns pad df)
  /\ (forall o,
        In o (returns pad df) <->
        In o (with_returns pad df)
        /\ isna (Price (base o)) = false
        /\ isna (CPI_Combined (base o)) = false
        /\ (forall c, In c (extra (base o)) -> cell_isna c = false)
        /\ isna (Inflation_Rate o) = false
        /\ isna (Gold_Returns o) = false)
  /\ (forall o,
        In o (with_returns pad df) ->
        isna (Price (base o)) = true \/ isna (CPI_Combined (base o)) = true
        \/ (exists c, In c (extra (base o)) /\ cell_isna c = true)
        \/ isna (Inflation_Rate o) = true \/ isna (Gold_Returns o) = true ->
        ~ In o (returns pad df)).
Proof.
  split; [| split].
  - unfold returns, dropna. apply filter_ext. intros o. unfold has_na.
    rewrite !negb_orb. do 2 f_equal. f_equal. apply no_cell_missing_forallb.
  - intros o. rewrite returns_complete, no_cell_missing_iff. tauto.
  - intros o _ Hna Hin. apply returns_complete in Hin.
    destruct Hin as [_ [H1 [H2 [He [H3 H4]]]]].
    destruct Hna as [E | [E | [[c [Hc E]] | [E | E]]]]; try congruence.
    rewrite no_cell_missing_iff in He. specialize (He c Hc). congruence.
Qed.

Lemma dropna_keeps_exactly_the_complete_rows_witness :
  exists o,
    nth_error (with_returns true stuck_at_zero) 2 = Some o
    /\ ~ In o (returns true stuck_at_zero).
Proof.
  destruct (nth_error (with_returns true stuck_at_zero) 2) as [o |] eqn:E;
    [| vm_compute in E; discriminate E].
  exists o. split; [reflexivity |].
  apply (proj2 (proj2 (dropna_keeps_exactly_the_complete_rows true stuck_at_zero))).
  - apply (nth_error_In _ _ E).
  - right. right. right. left.
    vm_compute in E. injection E as <-. reflexivity.
Defined.

(** A row is removed for a missing cell of a column the script never reads. *)
Example dropna_looks_at_every_column :
  map (fun o => value (Date (base o))) (returns true volume_not_reported)
  = [value mar23].
Proof.
  reflexivity.
Qed.

(** A row in third position is removed when its rate is 0/0. *)
Example dropna_removes_a_later_row :
  length (with_returns true stuck_at_zero) = 3%nat
  /\ option_map Inflation_Rate (nth_error (with_returns true stuck_at_zero) 2)
     = Some NaN
  /\ map (fun o => value (Date (base o))) (returns true stuck_at_zero)
     = [value feb23].
Proof.
  repeat split; reflexivity.
Qed.

(* ================================================================== *)
(** * Properties of the date parsing *)

Lemma try_formats_first_success (to_datetime : date_parser)
  (fmts : list string) (raw : list string) :
  (exists n fmt parsed,
      nth_error fmts n = Some fmt
      /\ to_datetime (Some fmt) raw = Some parsed
      /\ (forall m fmt', (m < n)%nat -> nth_error fmts m = Some fmt' ->
                         to_datetime (Some fmt') raw = None)
      /\ try_formats to_datetime fmts raw = Some parsed)
  \/ ((forall fmt, In fmt fmts -> to_datetime (Some fmt) raw = None)
      /\ try_formats to_datetime fmts raw = to_datetime None raw).
Proof.
  induction fmts as [| f fmts IH]; simpl.
  - right. split; [intros fmt [] | reflexivity].
  - destruct (to_datetime (Some f) raw) as [parsed |] eqn:E.
    + left. exists 0%nat, f, parsed. repeat split; try assumption.
      intros m fmt' Hm. lia.
    + destruct IH as [[n [fmt [parsed [Hn [Hok [Hbefore Hres]]]]]] | [Hall Hres]].
      * left. exists (S n), fmt, parsed. repeat split; try assumption.
        intros [| m] fmt' Hm Hnth; simpl in Hnth.
        -- now injection Hnth as <-.
        -- apply (Hbefore m); [lia | assumption].
      * right. split; [| assumption].
        intros fmt [<- | Hin]; [assumption | now apply Hall].
Qed.

Lemma astype_month_first_day (dates : list Timestamp) :
  Forall (fun t => day t = 1) (astype_month dates)
  /\ map year (astype_month dates) = map year dates
  /\ map month (astype_month dates) = map month dates.
Proof.
  unfold astype_month. rewrite !map_map. simpl. repeat split.
  apply Forall_forall. intros t Ht. apply in_map_iff in Ht as [t' [<- _]].
  reflexivity.
Qed.

(** C4 as stated fails for the index series: on a series that the day-first
    format parses in full, the gold path reads 1 February 2023 while the
    index path, which calls the parser without a format, reads 2 January. *)
Lemma cpi_dates_do_not_try_the_formats :
  In "%d/%m/%Y"%string gold_formats
  /\ sample_to_datetime (Some "%b %Y"%string) ["01/02/2023"%string] = None
  /\ sample_to_datetime (Some "%b %y"%string) ["01/02/2023"%string] = None
  /\ sample_to_datetime (Some "%d/%m/%Y"%string) ["01/02/2023"%string]
     = Some [mkTimestamp 2023 2 1]
  /\ gold_dates sample_to_datetime ["01/02/2023"%string]
     = Some [mkTimestamp 2023 2 1]
  /\ cpi_dates sample_to_datetime ["01/02/2023"%string]
     = Some [mkTimestamp 2023 1 1]
  /\ cpi_dates sample_to_datetime ["01/02/2023"%string]
     <> Some (astype_month [mkTimestamp 2023 2 1]).
Proof.
  repeat split; try reflexivity.
  - simpl. tauto.
  - discriminate.
Qed.

(** C4 (as amended): the gold dates are parsed with the first of the four
    formats, in their listed order, that parses the whole series, and with
    the format-free call when none does; the index dates are always parsed
    with the format-free call; on either path every date of the result is
    the first day of the month of the parsed date. *)
Theorem gold_dates_use_first_format_that_parses
  (to_datetime : date_parser) (raw : list string) :
  gold_formats = ["%b %Y"; "%b %y"; "%d/%m/%Y"; "%Y-%m-%d"]%string
  /\ ((exists n fmt parsed,
          nth_error gold_formats n = Some fmt
          /\ to_datetime (Some fmt) raw = Some parsed
          /\ (forall m fmt', (m < n)%nat -> nth_error gold_formats m = Some fmt' ->
                             to_datetime (Some fmt') raw = None)
          /\ gold_dates to_datetime raw = Some (astype_month parsed))
      \/ ((forall fmt, In fmt gold_formats -> to_datetime (Some fmt) raw = None)
          /\ gold_dates to_datetime raw
             = option_map astype_month (to_datetime None raw)))
  /\ cpi_dates to_datetime raw = option_map astype_month (to_datetime None raw)
  /\ (forall dates,
        gold_dates to_datetime raw = Some dates
        \/ cpi_dates to_datetime raw = Some dates ->
        Forall (fun t => day t = 1) dates).
Proof.
  split; [reflexivity |]. split; [| split; [reflexivity |]].
  - unfold gold_dates.
    destruct (try_formats_first_success to_datetime gold_formats raw)
      as [[n [fmt [parsed [Hn [Hok [Hbefore Hres]]]]]] | [Hall Hres]].
    + left. exists n, fmt, parsed. rewrite Hres. now repeat split.
    + right. rewrite Hres. now split.
  - intros dates H. unfold gold_dates, cpi_dates in H.
    assert (E : exists parsed, dates = astype_month parsed).
    { destruct H as [H | H];
        [destruct (try_formats to_datetime gold_formats raw) as [parsed |]
        | destruct (to_datetime None raw) as [parsed |]];
        simpl in H; try discriminate; injection H as <-; eauto. }
    destruct E as [parsed ->]. apply astype_month_first_day.
Qed.

Lemma gold_dates_use_first_format_that_parses_witness :
  Forall (fun t => day t = 1) [mkTimestamp 2023 2 1].
Proof.
  apply (proj2 (proj2 (proj2
           (gold_dates_use_first_format_that_parses sample_to_datetime
              ["01/02/2023"%string])))).
  left. reflexivity.
Defined.

(* ================================================================== *)
(** * Properties of the static fit *)

(** C7 as stated fails: on the two observations left from three merged
    months the static fit returns a result (the line through the two points,
    R-squared 1, no p-value) and its summary is printed; nothing in the
    stage looks at the sample size. *)
Lemma static_regression_accepts_two_pairs :
  length (returns true (merged sample_gold sample_cpi)) = 2%nat
  /\ static_regression two_point_ols sample_summary
       (returns true (merged sample_gold sample_cpi))
     <> None
  /\ option_map (fun r => same (r_squared r) one)
       (static_regression two_point_ols sample_summary
          (returns true (merged sample_gold sample_cpi))) = Some true
  /\ option_map beta_pvalue
       (static_regression two_point_ols sample_summary
          (returns true (merged sample_gold sample_cpi))) = Some NaN.
Proof.
  repeat split; try reflexivity.
  vm_compute. discriminate.
Qed.

(** C7 (as amended): the static stage makes no sample-size check.  It
    returns the intercept, slope, slope p-value and R-squared whenever the
    fit returns a model, the printing of its summary does not raise and the
    model carries the two labels, whatever the number of observations; and
    it fails exactly when the library raises, in the fit or in the summary,
    or a label is absent. *)
Theorem static_regression_succeeds_whenever_the_fit_does
  (ols : ols_fitter) (summary : summary_printer) (df : list Obs) :
  (forall model a b p,
      ols (col_Inflation_Rate df) (col_Gold_Returns df) = Some model ->
      summary (col_Inflation_Rate df) (col_Gold_Returns df) = Some tt ->
      lookup "const" (params model) = Some a ->
      lookup "Inflation_Rate" (params model) = Some b ->
      lookup "Inflation_Rate" (pvalues model) = Some p ->
      static_regression ols summary df
      = Some (mkRegression a b p (rsquared model)))
  /\ (static_regression ols summary df = None <->
      ols (col_Inflation_Rate df) (col_Gold_Returns df) = None
      \/ exists model,
           ols (col_Inflation_Rate df) (col_Gold_Returns df) = Some model
           /\ (summary (col_Inflation_Rate df) (col_Gold_Returns df) = None
               \/ lookup "const" (params model) = None
               \/ lookup "Inflation_Rate" (params model) = None
               \/ lookup "Inflation_Rate" (pvalues model) = None)).
Proof.
  unfold static_regression. split.
  - intros model a b p -> -> Ha Hb Hp. now rewrite Ha, Hb, Hp.
  - destruct (ols (col_Inflation_Rate df) (col_Gold_Returns df)) as [model |].
    + destruct (summary (col_Inflation_Rate df) (col_Gold_Returns df))
        as [u |] eqn:Es.
      * destruct (lookup "Inflation_Rate" (params model)) as [b |] eqn:Eb;
          destruct (lookup "Inflation_Rate" (pvalues model)) as [p |] eqn:Ep;
          destruct (lookup "const" (params model)) as [a |] eqn:Ea;
          split; intros H; try discriminate; try reflexivity;
          try (right; exists model; split; [reflexivity | tauto]);
          destruct H as [H | [m [Hm H]]]; try discriminate;
          injection Hm as <-; rewrite ?Ea, ?Eb, ?Ep in H;
          destruct H as [H | [H | [H | H]]]; discriminate.
      * split; [| reflexivity]. intros _. right. exists model.
        split; [reflexivity | now left].
    + split; [now left | reflexivity].
Qed.

Lemma static_regression_succeeds_whenever_the_fit_does_witness :
  exists model a b,
    two_point_ols (col_Inflation_Rate (returns true (merged sample_gold sample_cpi)))
                  (col_Gold_Returns (returns true (merged sample_gold sample_cpi)))
    = Some model
    /\ static_regression two_point_ols sample_summary
         (returns true (merged sample_gold sample_cpi))
       = Some (mkRegression a b NaN (rsquared model)).
Proof.
  destruct (two_point_ols
              (col_Inflation_Rate (returns true (merged sample_gold sample_cpi)))
              (col_Gold_Returns (returns true (merged sample_gold sample_cpi))))
    as [model |] eqn:E; [| vm_compute in E; discriminate E].
  destruct (lookup "const" (params model)) as [a |] eqn:Ea;
    [| vm_compute in E; injection E as <-; discriminate Ea].
  destruct (lookup "Inflation_Rate" (params model)) as [b |] eqn:Eb;
    [| vm_compute in E; injection E as <-; discriminate Eb].
  assert (Ep : lookup "Inflation_Rate" (pvalues model) = Some NaN).
  { vm_compute in E. injection E as <-. reflexivity. }
  assert (Es : sample_summary
                 (col_Inflation_Rate (returns true (merged sample_gold sample_cpi)))
                 (col_Gold_Returns (returns true (merged sample_gold sample_cpi)))
               = Some tt) by reflexivity.
  exists model, a, b. split; [reflexivity |].
  exact (proj1 (static_regression_succeeds_whenever_the_fit_does two_point_ols
                  sample_summary (returns true (merged sample_gold sample_cpi)))
           model a b NaN E Es Ea Eb Ep).
Defined.

(* ================================================================== *)
(** * Properties of the rolling statistics *)

Section RollingFacts.

Variable wcorr : window_correlation.
Variable ols : ols_fitter.

Lemma nth_error_map_seq {A : Type} (f : nat -> A) (n i : nat) :
  (i < n)%nat -> nth_error (map f (seq 0 n)) i = Some (f i).
Proof.
  intros Hi. rewrite nth_error_map, nth_error_seq.
  apply Nat.ltb_lt in Hi. now rewrite Hi.
Qed.

Lemma rolling_corr_length (W : nat) (x y : list float) :
  length (rolling_corr wcorr W x y) = length x.
Proof.
  unfold rolling_corr. now rewrite length_map, length_seq.
Qed.

Lemma rolling_corr_head (W : nat) (x y : list float) (i : nat) :
  (i < length x)%nat -> (i < W - 1)%nat ->
  nth_error (rolling_corr wcorr W x y) i = Some NaN.
Proof.
  intros Hi Hw. unfold rolling_corr. rewrite nth_error_map_seq by exact Hi.
  assert (E : (i + 1 <? W)%nat = true) by (apply Nat.ltb_lt; lia).
  now rewrite E.
Qed.

Lemma rolling_corr_full_window (W : nat) (x y : list float) (i : nat) :
  (i < length x)%nat -> (W - 1 <= i)%nat -> (1 <= W)%nat ->
  nth_error (rolling_corr wcorr W x y) i
  = Some (wcorr (iloc x (i + 1 - W) W) (iloc y (i + 1 - W) W)).
Proof.
  intros Hi Hw Hpos. unfold rolling_corr. rewrite nth_error_map_seq by exact Hi.
  assert (E : (i + 1 <? W)%nat = false) by (apply Nat.ltb_ge; lia).
  now rewrite E.
Qed.

Lemma rolling_beta_length (x y : list float) (window : nat) :
  length (rolling_beta ols x y window)
  = (window - 1 + (length x + 1 - window))%nat.
Proof.
  unfold rolling_beta. now rewrite length_app, repeat_length, length_map, length_seq.
Qed.

Lemma rolling_beta_head (x y : list float) (window i : nat) :
  (i < window - 1)%nat -> nth_error (rolling_beta ols x y window) i = Some NaN.
Proof.
  intros Hi. unfold rolling_beta.
  rewrite nth_error_app1 by (rewrite repeat_length; exact Hi).
  now apply nth_error_repeat.
Qed.

Lemma rolling_beta_window (x y : list float) (window i : nat) :
  (i < length x + 1 - window)%nat ->
  nth_error (rolling_beta ols x y window) (window - 1 + i)
  = Some (match window_beta ols (iloc x i window) (iloc y i window) with
          | Some b => b
          | None => NaN
          end).
Proof.
  intros Hi. unfold rolling_beta.
  rewrite nth_error_app2 by (rewrite repeat_length; lia).
  rewrite repeat_length.
  replace (window - 1 + i - (window - 1))%nat with i by lia.
  now rewrite nth_error_map_seq.
Qed.

(** The [try] body fails exactly when the fit raises or the fitted model
    has fewer than two coefficients. *)
Lemma window_beta_fails_iff (x_window y_window : list float) :
  window_beta ols x_window y_window = None <->
  ols x_window y_window = None
  \/ exists model,
       ols x_window y_window = Some model /\ (length (params model) <= 1)%nat.
Proof.
  unfold window_beta. destruct (ols x_window y_window) as [model |].
  - destruct (nth_error (params model) 1) as [pv |] eqn:E; simpl.
    + split; [discriminate |]. intros [H | [m [Hm Hlen]]]; [discriminate |].
      injection Hm as <-. apply nth_error_None in Hlen. congruence.
    + split; [| reflexivity]. intros _. right. exists model.
      split; [reflexivity |]. now apply nth_error_None.
  - split; [now left | reflexivity].
Qed.

(** With at least [window - 1] rows the beta column has one entry per row. *)
Lemma rolling_beta_length_enough_rows (x y : list float) (window : nat) :
  (1 <= window)%nat -> (window - 1 <= length x)%nat ->
  length (rolling_beta ols x y window) = length x.
Proof.
  intros Hpos H. rewrite rolling_beta_length. lia.
Qed.

End RollingFacts.

(** C2 as stated fails: a window without variance in the regressor is not
    always a failed window.  Where the inflation rate is 0.0 throughout the
    window the fit raises nothing and returns the slope 0.0, and that zero,
    not a missing marker, is what the list holds at the window's position;
    the next window gets its slope as usual. *)
Lemma constant_zero_window_records_slope_zero :
  iloc no_inflation_then_rising 0 2 = [of_Z 0; of_Z 0]
  /\ option_map (fun b => same b (of_Z 0))
       (nth_error (rolling_beta two_point_ols no_inflation_then_rising
                     three_returns 2) 1)
     = Some true
  /\ option_map isna
       (nth_error (rolling_beta two_point_ols no_inflation_then_rising
                     three_returns 2) 1)
     = Some false
  /\ option_map (fun b => same b (of_Z 2))
       (nth_error (rolling_beta two_point_ols no_inflation_then_rising
                     three_returns 2) 2)
     = Some true.
Proof.
  repeat split; reflexivity.
Qed.

(** C2 (as amended): in the rolling beta, a window whose fit raises, or
    whose fitted model has no second coefficient, gets NaN at its own
    position; nothing is raised, the list keeps its full length, and every
    other window still gets the slope of its own fit. *)
Theorem rolling_beta_marks_failed_window_and_continues
  (ols : ols_fitter) (x y : list float) (window i : nat) :
  (i < length x + 1 - window)%nat ->
  (ols (iloc x i window) (iloc y i window) = None
   \/ exists model,
        ols (iloc x i window) (iloc y i window) = Some model
        /\ (length (params model) <= 1)%nat) ->
  nth_error (rolling_beta ols x y window) (window - 1 + i) = Some NaN
  /\ NaN <> of_Z 0
  /\ length (rolling_beta ols x y window)
     = (window - 1 + (length x + 1 - window))%nat
  /\ (forall j b,
        (j < length x + 1 - window)%nat ->
        window_beta ols (iloc x j window) (iloc y j window) = Some b ->
        nth_error (rolling_beta ols x y window) (window - 1 + j) = Some b).
Proof.
  intros Hi Hfail. apply window_beta_fails_iff in Hfail.
  split; [| split; [| split]].
  - rewrite rolling_beta_window by exact Hi. now rewrite Hfail.
  - discriminate.
  - apply rolling_beta_length.
  - intros j b Hj Hok. rewrite rolling_beta_window by exact Hj. now rewrite Hok.
Qed.

Lemma rolling_beta_marks_failed_window_and_continues_witness :
  option_map (fun model => length (params model))
    (two_point_ols (iloc flat_then_rising 0 2) (iloc three_returns 0 2))
  = Some 1%nat
  /\ nth_error (rolling_beta two_point_ols flat_then_rising three_returns 2) 1
     = Some NaN
  /\ option_map (fun b => same b (of_Z 2))
       (nth_error (rolling_beta two_point_ols flat_then_rising three_returns 2) 2)
     = Some true.
Proof.
  assert (Hin : (0 < length flat_then_rising + 1 - 2)%nat)
    by (unfold flat_then_rising; simpl; lia).
  destruct (two_point_ols (iloc flat_then_rising 0 2) (iloc three_returns 0 2))
    as [model |] eqn:E; [| vm_compute in E; discriminate E].
  assert (Hlen : length (params model) = 1%nat)
    by (vm_compute in E; injection E as <-; reflexivity).
  assert (Hfail : two_point_ols (iloc flat_then_rising 0 2)
                    (iloc three_returns 0 2) = None
                  \/ exists m,
                       two_point_ols (iloc flat_then_rising 0 2)
                         (iloc three_returns 0 2) = Some m
                       /\ (length (params m) <= 1)%nat).
  { right. exists model. split; [exact E |]. rewrite Hlen. lia. }
  destruct (rolling_beta_marks_failed_window_and_continues two_point_ols
              flat_then_rising three_returns 2 0 Hin Hfail)
    as [Hnan [_ [_ Hothers]]].
  split; [simpl; now rewrite Hlen |]. split; [exact Hnan |]. reflexivity.
Defined.

(** C3, the failing case: on a frame of fewer than eleven observations the
    12-month rolling beta is a list of eleven entries, so it is not a column
    of the frame and, the frame having a row, the assignment of line 139
    fails, while the rolling correlation has one entry per row. *)
Theorem rolling_beta_too_long_on_short_frame
  (wcorr : window_correlation) (ols : ols_fitter) (df : list Obs) :
  (length df < 11)%nat ->
  length (rolling_beta ols (col_Inflation_Rate df) (col_Gold_Returns df) 12)
  = 11%nat
  /\ length (rolling_corr wcorr 12 (col_Inflation_Rate df) (col_Gold_Returns df))
     = length df
  /\ (df <> [] -> rolling_columns wcorr ols df = None).
Proof.
  intros Hshort.
  assert (Hx : length (col_Inflation_Rate df) = length df)
    by (unfold col_Inflation_Rate; now rewrite length_map).
  assert (Hb : length (rolling_beta ols (col_Inflation_Rate df)
                         (col_Gold_Returns df) 12) = 11%nat)
    by (rewrite rolling_beta_length, Hx; lia).
  split; [exact Hb |]. split.
  - now rewrite rolling_corr_length.
  - intros _. unfold rolling_columns. rewrite Hb.
    assert (E : (11 =? length df)%nat = false) by (apply Nat.eqb_neq; lia).
    now rewrite E.
Qed.

Lemma rolling_beta_too_long_on_short_frame_witness :
  length (returns true (merged sample_gold sample_cpi)) = 2%nat
  /\ length (rolling_beta two_point_ols
               (col_Inflation_Rate (returns true (merged sample_gold sample_cpi)))
               (col_Gold_Returns (returns true (merged sample_gold sample_cpi))) 12)
     = 11%nat
  /\ rolling_columns two_point_corr two_point_ols
       (returns true (merged sample_gold sample_cpi)) = None.
Proof.
  assert (Hshort : (length (returns true (merged sample_gold sample_cpi)) < 11)%nat)
    by (vm_compute; lia).
  assert (Hrows : returns true (merged sample_gold sample_cpi) <> [])
    by (intros E; vm_compute in E; discriminate E).
  destruct (rolling_beta_too_long_on_short_frame two_point_corr two_point_ols
              (returns true (merged sample_gold sample_cpi)) Hshort)
    as [Hb [_ Hnone]].
  split; [reflexivity |]. split; [exact Hb | exact (Hnone Hrows)].
Defined.

(* ================================================================== *)
(** * Further properties of the merge *)

Lemma in_merge_rows (df_gold : list GoldRow) (df_cpi : list CpiRow) (r : Row) :
  In r (merge df_gold df_cpi) <->
  exists g c,
    In g df_gold /\ In c df_cpi
    /\ value (gold_Date g) = value (cpi_Date c)
    /\ r = mkRow (gold_Date g) (gold_Price g) (cpi_CPI_Combined c)
                 (gold_extra g ++ cpi_extra c).
Proof.
  unfold merge. rewrite in_flat_map. split.
  - intros [g [Hg Hr]]. apply in_map_iff in Hr as [c [Hr Hc]].
    apply filter_In in Hc as [Hc Hsame]. unfold same_date in Hsame.
    apply Z.eqb_eq in Hsame. exists g, c. now repeat split.
  - intros [g [c [Hg [Hc [Hk ->]]]]]. exists g. split; [assumption |].
    apply in_map_iff. exists c. split; [reflexivity |].
    apply filter_In. split; [assumption |].
    unfold same_date. now apply Z.eqb_eq.
Qed.

Lemma matches_count (df_cpi : list CpiRow) (t : Timestamp) :
  length (filter (fun c => same_date t (cpi_Date c)) df_cpi)
  = count_occ Z.eq_dec (cpi_keys df_cpi) (value t).
Proof.
  unfold cpi_keys, same_date. induction df_cpi as [| c l IH]; [reflexivity |].
  simpl. destruct (Z.eq_dec (value (cpi_Date c)) (value t)) as [E | E].
  - rewrite E, Z.eqb_refl. simpl. now rewrite IH.
  - assert (F : (value t =? value (cpi_Date c)) = false)
      by (apply Z.eqb_neq; congruence).
    now rewrite F.
Qed.

Lemma count_same_date_rows (g : GoldRow) (l : list CpiRow) (k : Z) :
  count_occ Z.eq_dec
    (keys (map (fun c => mkRow (gold_Date g) (gold_Price g) (cpi_CPI_Combined c)
                           (gold_extra g ++ cpi_extra c)) l)) k
  = if Z.eq_dec (value (gold_Date g)) k then length l else 0%nat.
Proof.
  unfold keys. induction l as [| c l IH]; simpl.
  - now destruct (Z.eq_dec (value (gold_Date g)) k).
  - rewrite IH. now destruct (Z.eq_dec (value (gold_Date g)) k).
Qed.

Lemma merge_key_count (df_gold : list GoldRow) (df_cpi : list CpiRow) (k : Z) :
  count_occ Z.eq_dec (keys (merge df_gold df_cpi)) k
  = (count_occ Z.eq_dec (gold_keys df_gold) k
     * count_occ Z.eq_dec (cpi_keys df_cpi) k)%nat.
Proof.
  induction df_gold as [| g l IH]; [reflexivity |].
  change (merge (g :: l) df_cpi)
    with (map (fun c => mkRow (gold_Date g) (gold_Price g) (cpi_CPI_Combined c)
                          (gold_extra g ++ cpi_extra c))
              (filter (fun c => same_date (gold_Date g) (cpi_Date c)) df_cpi)
          ++ merge l df_cpi).
  unfold keys at 1. rewrite map_app. fold (keys (merge l df_cpi)).
  rewrite count_occ_app, IH.
  change (map (fun r : Row => value (Date r)) ?l) with (keys l).
  rewrite count_same_date_rows, matches_count.
  unfold gold_keys. simpl.
  destruct (Z.eq_dec (value (gold_Date g)) k) as [-> | E]; lia.
Qed.

(** X1: a row is in the merged frame exactly when it pairs a gold row with
    an index row of the same key, carrying the date and price of the one and
    the index value of the other. *)
Theorem merged_rows_are_matching_pairs
  (df_gold : list GoldRow) (df_cpi : list CpiRow) (r : Row) :
  In r (merged df_gold df_cpi) <->
  exists g c,
    In g df_gold /\ In c df_cpi
    /\ value (gold_Date g) = value (cpi_Date c)
    /\ r = mkRow (gold_Date g) (gold_Price g) (cpi_CPI_Combined c)
                 (gold_extra g ++ cpi_extra c).
Proof.
  unfold merged. rewrite <- in_merge_rows. split; apply Permutation_in.
  - apply Permutation_sym, sort_values_perm.
  - apply sort_values_perm.
Qed.

(** X2: a month occurs in the merged frame as many times as the product of
    its numbers of occurrences in the two inputs. *)
Theorem merged_key_multiplicity
  (df_gold : list GoldRow) (df_cpi : list CpiRow) (k : Z) :
  count_occ Z.eq_dec (keys (merged df_gold df_cpi)) k
  = (count_occ Z.eq_dec (gold_keys df_gold) k
     * count_occ Z.eq_dec (cpi_keys df_cpi) k)%nat.
Proof.
  rewrite <- merge_key_count. unfold merged, keys.
  apply Permutation_count_occ, Permutation_sym, Permutation_map, sort_values_perm.
Qed.

(** X3: the merged frame is empty exactly when the two inputs share no
    month; the gap check then prints its all-clear line and the return stage
    yields no observation. *)
Theorem no_common_month_gives_empty_frame
  (df_gold : list GoldRow) (df_cpi : list CpiRow) :
  (merged df_gold df_cpi = [] <->
   forall k, In k (gold_keys df_gold) -> ~ In k (cpi_keys df_cpi))
  /\ (merged df_gold df_cpi = [] ->
      snd (check_gaps (merged df_gold df_cpi)) = gap_ok
      /\ forall pad, returns pad (merged df_gold df_cpi) = []).
Proof.
  split.
  - split.
    + intros E k Hg Hc.
      assert (Hin : In k (keys (merged df_gold df_cpi)))
        by (apply merged_keys_common_sorted; now split).
      rewrite E in Hin. exact Hin.
    + intros Hnone. destruct (merged df_gold df_cpi) as [| r l] eqn:E;
        [reflexivity |].
      exfalso.
      assert (Hin : In (value (Date r)) (keys (merged df_gold df_cpi)))
        by (rewrite E; now left).
      apply merged_keys_common_sorted in Hin as [Hg Hc]. exact (Hnone _ Hg Hc).
  - intros ->. split; [reflexivity | intros pad; reflexivity].
Qed.

Lemma no_common_month_gives_empty_frame_witness :
  merged sample_gold january_2024_cpi = []
  /\ snd (check_gaps (merged sample_gold january_2024_cpi)) = gap_ok.
Proof.
  assert (E : merged sample_gold january_2024_cpi = []).
  { apply (proj1 (no_common_month_gives_empty_frame sample_gold january_2024_cpi)).
    intros k Hg Hc. simpl in Hg, Hc.
    destruct Hc as [<- | []].
    destruct Hg as [Hg | [Hg | [Hg | []]]]; discriminate Hg. }
  split; [exact E |].
  apply (proj2 (no_common_month_gives_empty_frame sample_gold january_2024_cpi) E).
Defined.

Lemma insert_before_larger (r : Row) (l : list Row) :
  Forall (fun k => value (Date r) < k) (keys l) -> insert_by_date r l = r :: l.
Proof.
  destruct l as [| r' l]; [reflexivity |]. simpl. intros H.
  inversion H as [| ? ? Hlt _]; subst.
  assert (E : (value (Date r) <=? value (Date r')) = true)
    by (apply Z.leb_le; lia).
  now rewrite E.
Qed.

(** X4: a frame whose keys already increase strictly comes out of the sort
    unchanged. *)
Theorem sort_values_keeps_increasing_frame (df : list Row) :
  StronglySorted Z.lt (keys df) -> sort_values df = df.
Proof.
  induction df as [| r df IH]; [reflexivity |]. simpl. intros H.
  inversion H as [| ? ? Hrest Hhead]; subst.
  rewrite (IH Hrest). now apply insert_before_larger.
Qed.

Lemma sort_values_keeps_increasing_frame_witness :
  sort_values (merged sample_gold sample_cpi) = merged sample_gold sample_cpi.
Proof.
  apply sort_values_keeps_increasing_frame.
  assert (E : keys (merged sample_gold sample_cpi) = [19358; 19389; 19417])
    by reflexivity.
  rewrite E. repeat constructor; lia.
Defined.

(* ================================================================== *)
(** * The calendar behind the month keys *)

Lemma month_value_split (k : Z) :
  exists y r,
    0 <= r < 12 /\ k = 12 * y + r
    /\ forall d, 0 <= d < 12 ->
         month_value (k + d)
         = if r + d <? 12 then days_from_civil y (r + d + 1) 1
           else days_from_civil (y + 1) (r + d - 12 + 1) 1.
Proof.
  exists (k / 12), (k mod 12).
  pose proof (Z.mod_pos_bound k 12 ltac:(lia)) as Hr.
  pose proof (Z.div_mod k 12 ltac:(lia)) as Hk.
  split; [exact Hr |]. split; [exact Hk |].
  intros d Hd. unfold month_value.
  destruct (k mod 12 + d <? 12) eqn:E; rewrite ?Z.ltb_lt, ?Z.ltb_ge in E.
  - replace ((k + d) / 12) with (k / 12)
      by (Z.to_euclidean_division_equations; lia).
    replace ((k + d) mod 12) with (k mod 12 + d)
      by (Z.to_euclidean_division_equations; lia).
    reflexivity.
  - replace ((k + d) / 12) with (k / 12 + 1)
      by (Z.to_euclidean_division_equations; lia).
    replace ((k + d) mod 12) with (k mod 12 + d - 12)
      by (Z.to_euclidean_division_equations; lia).
    reflexivity.
Qed.

Ltac each_month r Hr :=
  let Hcases := fresh "Hcases" in
  assert (r = 0 \/ r = 1 \/ r = 2 \/ r = 3 \/ r = 4 \/ r = 5 \/ r = 6
          \/ r = 7 \/ r = 8 \/ r = 9 \/ r = 10 \/ r = 11) as Hcases by lia;
  clear Hr;
  repeat match goal with H : _ \/ _ |- _ => destruct H as [H | H] end;
  subst r; unfold days_from_civil; simpl;
  Z.to_euclidean_division_equations; lia.

(** A month has 28 to 31 days. *)
Lemma month_value_step (k : Z) :
  28 <= month_value (k + 1) - month_value k <= 31.
Proof.
  destruct (month_value_split k) as [y [r [Hr [Hk Hd]]]].
  rewrite (Hd 1) by lia.
  replace (month_value k) with (month_value (k + 0)) by (f_equal; lia).
  rewrite (Hd 0) by lia. clear Hd Hk. each_month r Hr.
Qed.

(** Two months in a row have at least 59 days. *)
Lemma month_value_two_steps (k : Z) :
  59 <= month_value (k + 2) - month_value k.
Proof.
  destruct (month_value_split k) as [y [r [Hr [Hk Hd]]]].
  rewrite (Hd 2) by lia.
  replace (month_value k) with (month_value (k + 0)) by (f_equal; lia).
  rewrite (Hd 0) by lia. clear Hd Hk. each_month r Hr.
Qed.

Lemma month_value_grows (k : Z) (n : nat) :
  month_value k + 28 * Z.of_nat n <= month_value (k + Z.of_nat n).
Proof.
  induction n as [| n IH].
  - replace (k + Z.of_nat 0) with k by lia. lia.
  - replace (k + Z.of_nat (S n)) with (k + Z.of_nat n + 1) by lia.
    pose proof (month_value_step (k + Z.of_nat n)). lia.
Qed.

Lemma month_value_le (k j : Z) : k <= j -> month_value k <= month_value j.
Proof.
  intros H. pose proof (month_value_grows k (Z.to_nat (j - k))) as G.
  replace (k + Z.of_nat (Z.to_nat (j - k))) with j in G by lia. lia.
Qed.

Lemma month_value_lt (k j : Z) : k < j -> month_value k < month_value j.
Proof.
  intros H. pose proof (month_value_grows k (Z.to_nat (j - k))) as G.
  replace (k + Z.of_nat (Z.to_nat (j - k))) with j in G by lia. lia.
Qed.

Lemma value_of_month_start (t : Timestamp) :
  is_month_start t = true -> value t = month_value (month_index t).
Proof.
  unfold is_month_start, value, month_value, month_index. intros H.
  apply andb_true_iff in H as [H Hhi]. apply andb_true_iff in H as [Hd Hlo].
  apply Z.eqb_eq in Hd. apply Z.leb_le in Hlo, Hhi. rewrite Hd.
  replace ((year t * 12 + (month t - 1)) / 12) with (year t)
    by (Z.to_euclidean_division_equations; lia).
  replace ((year t * 12 + (month t - 1)) mod 12 + 1) with (month t)
    by (Z.to_euclidean_division_equations; lia).
  reflexivity.
Qed.

Lemma month_start_is_month_start (t : Timestamp) :
  1 <= month t <= 12 -> is_month_start (month_start t) = true.
Proof.
  intros [Hlo Hhi]. unfold is_month_start, month_start. simpl.
  apply Z.leb_le in Hlo, Hhi. now rewrite Hlo, Hhi.
Qed.

(** Two month starts are more than 50 days apart exactly when the later one
    is at least two months after the earlier one. *)
Lemma month_starts_far_apart (a b : Timestamp) :
  is_month_start a = true -> is_month_start b = true ->
  (50 < value b - value a <-> month_index a + 2 <= month_index b).
Proof.
  intros Ha Hb. rewrite (value_of_month_start a Ha), (value_of_month_start b Hb).
  split; intros H.
  - destruct (Z_lt_le_dec (month_index b) (month_index a + 2)) as [Hnear |];
      [| assumption].
    exfalso.
    destruct (Z_le_gt_dec (month_index b) (month_index a)) as [Hle | Hgt].
    + pose proof (month_value_le _ _ Hle). lia.
    + assert (E : month_index b = month_index a + 1) by lia.
      rewrite E in H. pose proof (month_value_step (month_index a)). lia.
  - pose proof (month_value_two_steps (month_index a)).
    pose proof (month_value_le (month_index a + 2) (month_index b) H). lia.
Qed.

(** X5: bringing a date to its month start moves it back by its day of the
    month less one, and for calendar months 1 to 12 the resulting key
    identifies the month: two dates get the same key exactly when they lie in
    the same month of the same year, and the keys are ordered as the months
    are. *)
Theorem month_key_identifies_the_month (t1 t2 : Timestamp) :
  1 <= month t1 <= 12 -> 1 <= month t2 <= 12 ->
  value (month_start t1) = value t1 - (day t1 - 1)
  /\ (value (month_start t1) = value (month_start t2) <->
      year t1 = year t2 /\ month t1 = month t2)
  /\ (value (month_start t1) < value (month_start t2) <->
      year t1 < year t2 \/ (year t1 = year t2 /\ month t1 < month t2)).
Proof.
  intros H1 H2.
  pose proof (value_of_month_start _ (month_start_is_month_start t1 H1)) as E1.
  pose proof (value_of_month_start _ (month_start_is_month_start t2 H2)) as E2.
  assert (I1 : month_index (month_start t1) = month_index t1) by reflexivity.
  assert (I2 : month_index (month_start t2) = month_index t2) by reflexivity.
  rewrite I1 in E1. rewrite I2 in E2.
  split; [| split].
  - unfold value, month_start, days_from_civil. simpl. lia.
  - rewrite E1, E2. split.
    + intros E.
      destruct (Z.lt_trichotomy (month_index t1) (month_index t2))
        as [Hlt | [Heq | Hgt]].
      * apply month_value_lt in Hlt. lia.
      * unfold month_index in Heq. lia.
      * apply month_value_lt in Hgt. lia.
    + intros [Hy Hm]. unfold month_index. now rewrite Hy, Hm.
  - rewrite E1, E2. split.
    + intros Hlt.
      destruct (Z_lt_le_dec (month_index t1) (month_index t2)) as [Hi | Hi].
      * unfold month_index in Hi. lia.
      * apply month_value_le in Hi. lia.
    + intros H. apply month_value_lt. unfold month_index. lia.
Qed.

Lemma month_key_identifies_the_month_witness :
  value (month_start (mkTimestamp 2023 1 5))
  = value (month_start (mkTimestamp 2023 1 20))
  /\ value (month_start (mkTimestamp 2023 1 20)) = 19358.
Proof.
  assert (H1 : 1 <= month (mkTimestamp 2023 1 5) <= 12) by (simpl; lia).
  assert (H2 : 1 <= month (mkTimestamp 2023 1 20) <= 12) by (simpl; lia).
  split; [| reflexivity].
  apply (proj1 (proj2 (month_key_identifies_the_month
                         (mkTimestamp 2023 1 5) (mkTimestamp 2023 1 20) H1 H2))).
  split; reflexivity.
Defined.

(** X6: on a frame whose dates are month starts, the gap check warns exactly
    when some row is followed by a row two or more calendar months later;
    consecutive months, a repeated month or a step back never warn. *)
Theorem gap_warning_means_a_missing_month (df : list Row) :
  Forall (fun r => is_month_start (Date r) = true) df ->
  (gap_detected df = true <->
   exists i a b,
     nth_error df i = Some a /\ nth_error df (S i) = Some b
     /\ month_index (Date a) + 2 <= month_index (Date b)).
Proof.
  intros Hall. rewrite Forall_forall in Hall. rewrite gap_detected_iff.
  split; intros [i [a [b [Ha [Hb H]]]]]; exists i, a, b;
    (split; [exact Ha |]); (split; [exact Hb |]);
    apply (month_starts_far_apart (Date a) (Date b));
    try exact H;
    try (apply Hall; eapply nth_error_In; eassumption).
Qed.

Lemma gap_warning_means_a_missing_month_witness :
  gap_detected february_missing = true
  /\ gap_detected (merged sample_gold sample_cpi) = false.
Proof.
  split.
  - apply (proj2 (gap_warning_means_a_missing_month february_missing
                    ltac:(repeat constructor))).
    exists 0%nat, (mkRow jan23 (of_Z 100) (of_Z 100) []),
      (mkRow mar23 (of_Z 99) (of_Z 103) []).
    split; [reflexivity |]. split; [reflexivity |].
    unfold month_index, jan23, mar23. simpl. lia.
  - reflexivity.
Defined.

(* ================================================================== *)
(** * Further properties of the percentage changes *)

Lemma map_snd_combine_same_length {A B : Type} (l1 : list A) (l2 : list B) :
  length l1 = length l2 -> map snd (combine l1 l2) = l2.
Proof.
  revert l2. induction l1 as [| a l1 IH]; intros [| b l2] H;
    simpl in *; try reflexivity; try discriminate.
  f_equal. apply IH. now injection H.
Qed.

(** The two rate columns of the annotated frame. *)
Lemma with_returns_columns (pad : bool) (df : list Row) :
  map Inflation_Rate (with_returns pad df)
  = percent (pct_change pad (map CPI_Combined df))
  /\ map Gold_Returns (with_returns pad df)
     = percent (pct_change pad (map Price df)).
Proof.
  unfold with_returns.
  set (A := percent (pct_change pad (map CPI_Combined df))).
  set (B := percent (pct_change pad (map Price df))).
  assert (LA : length A = length df)
    by (unfold A, percent; now rewrite length_map, pct_change_length, length_map).
  assert (LB : length B = length df)
    by (unfold B, percent; now rewrite length_map, pct_change_length, length_map).
  assert (LAB : length df = length (combine A B))
    by (rewrite length_combine; lia).
  rewrite !map_map. cbn [Inflation_Rate Gold_Returns].
  split.
  - rewrite <- (map_map snd fst), (map_snd_combine_same_length _ _ LAB).
    apply map_fst_combine_same_length. lia.
  - rewrite <- (map_map snd snd), (map_snd_combine_same_length _ _ LAB).
    apply map_snd_combine_same_length. lia.
Qed.

(** Every entry of the change column of a column without missing values. *)
Lemma pct_change_entries (pad : bool) (xs : list float) (n : nat) :
  forallb (fun x => negb (isna x)) xs = true ->
  nth_error (percent (pct_change pad xs)) n
  = match n with
    | O => match xs with [] => None | _ :: _ => Some NaN end
    | S j =>
        match nth_error xs j, nth_error xs (S j) with
        | Some a, Some b => Some (mul (sub (div b a) one) hundred)
        | _, _ => None
        end
    end.
Proof.
  intros Hna. destruct n as [| j].
  - destruct xs as [| x xs]; [now destruct pad |].
    destruct (pct_change_head pad x xs) as [rest ->]. reflexivity.
  - assert (L : length (percent (pct_change pad xs)) = length xs)
      by (unfold percent; now rewrite length_map, pct_change_length).
    destruct (nth_error xs (S j)) as [b |] eqn:Eb.
    + destruct (nth_error xs j) as [a |] eqn:Ea.
      * now apply pct_change_nth.
      * apply nth_error_None in Ea.
        assert (nth_error xs (S j) <> None) by congruence.
        apply nth_error_Some in H. lia.
    + apply nth_error_None in Eb.
      destruct (nth_error xs j); apply nth_error_None; lia.
Qed.

(** X7: on a frame without missing raw values the annotated frame is the
    same whether or not pandas pads before taking the changes. *)
Theorem returns_do_not_depend_on_padding (df : list Row) :
  no_missing df -> with_returns true df = with_returns false df.
Proof.
  intros [Hc Hp]. unfold with_returns, pct_change, ffill.
  now rewrite (ffill_from_no_nan NaN _ Hc), (ffill_from_no_nan NaN _ Hp).
Qed.

Lemma returns_do_not_depend_on_padding_witness :
  with_returns true zero_index = with_returns false zero_index.
Proof.
  apply returns_do_not_depend_on_padding. split; reflexivity.
Defined.

(** X8: when every row carries the same finite non-zero price, the gold
    return of every row after the first is exactly zero. *)
Theorem constant_price_gives_zero_returns
  (pad : bool) (df : list Row) (p : Qc) :
  is_zero p = false ->
  (forall r, In r df -> Price r = Fin p) ->
  forall i o,
    nth_error (with_returns pad df) (S i) = Some o ->
    Gold_Returns o = Fin 0%Qc.
Proof.
  intros Hp Hconst i o Ho.
  assert (Hcol : nth_error (map Gold_Returns (with_returns pad df)) (S i)
                 = Some (Gold_Returns o))
    by (rewrite nth_error_map, Ho; reflexivity).
  rewrite (proj2 (with_returns_columns pad df)) in Hcol.
  assert (Hna : forallb (fun x => negb (isna x)) (map Price df) = true).
  { apply forallb_forall. intros x Hx. apply in_map_iff in Hx as [r [<- Hr]].
    now rewrite (Hconst r Hr). }
  rewrite (pct_change_entries pad _ (S i) Hna) in Hcol.
  rewrite !nth_error_map in Hcol.
  destruct (nth_error df i) as [a |] eqn:Ea; [| discriminate].
  destruct (nth_error df (S i)) as [b |] eqn:Eb; [| discriminate].
  simpl in Hcol.
  rewrite (Hconst a (nth_error_In _ _ Ea)), (Hconst b (nth_error_In _ _ Eb)) in Hcol.
  injection Hcol as <-.
  unfold one, hundred, of_Z. simpl. rewrite Hp. simpl. f_equal.
  apply is_zero_neq in Hp. change (Q2Qc (inject_Z 1)) with 1%Qc. field. exact Hp.
Qed.

Lemma constant_price_gives_zero_returns_witness :
  option_map Gold_Returns (nth_error (with_returns true steady_price) 3)
  = Some (Fin 0%Qc).
Proof.
  destruct (nth_error (with_returns true steady_price) 3) as [o |] eqn:E;
    [| vm_compute in E; discriminate E].
  simpl. f_equal.
  apply (constant_price_gives_zero_returns true steady_price
           (Q2Qc (inject_Z 60000)) eq_refl) with (i := 2%nat); [| exact E].
  intros r Hr. simpl in Hr.
  destruct Hr as [<- | [<- | [<- | [<- | []]]]]; reflexivity.
Defined.

Lemma in_tl_nth_error {A : Type} (l : list A) (x : A) :
  In x (tl l) -> exists i, nth_error l (S i) = Some x.
Proof.
  destruct l as [| a l]; simpl; [intros [] |]. apply In_nth_error.
Qed.

Lemma nonzero_row (xs : list float) (x : float) :
  forallb is_nonzero xs = true -> In x xs ->
  exists q, x = Fin q /\ is_zero q = false.
Proof.
  intros H Hx. rewrite forallb_forall in H. specialize (H x Hx).
  destruct x as [| s | q]; try discriminate.
  exists q. split; [reflexivity |]. simpl in H. now apply negb_true_iff.
Qed.

Lemma clean_frame_no_missing (df : list Row) : clean_frame df -> no_missing df.
Proof.
  assert (H : forall xs, forallb is_nonzero xs = true ->
                         forallb (fun x => negb (isna x)) xs = true).
  { induction xs as [| x xs IH]; simpl; [reflexivity |].
    intros E. apply andb_true_iff in E as [Hx Hxs].
    rewrite (IH Hxs). now destruct x. }
  intros [Hc [Hp _]]. split; now apply H.
Qed.

(** X9: on a frame whose raw values are all finite and non-zero and whose
    other cells are all present, the return stage drops the first row and
    nothing else: it returns the annotated rows two onward, one fewer than
    the merged frame holds. *)
Theorem clean_frame_loses_only_its_first_row (pad : bool) (df : list Row) :
  clean_frame df ->
  returns pad df = tl (with_returns pad df)
  /\ length (returns pad df) = (length df - 1)%nat
  /\ map base (returns pad df) = tl df.
Proof.
  intros Hclean.
  pose proof (clean_frame_no_missing df Hclean) as Hnm.
  destruct Hclean as [Hc [Hp He]].
  assert (E : returns pad df = tl (with_returns pad df)).
  { rewrite returns_skip_first. unfold dropna. apply forallb_filter_id.
    apply forallb_forall. intros o Ho.
    apply in_tl_nth_error in Ho as [i Ho].
    assert (Hlen : (S i < length df)%nat).
    { rewrite <- (with_returns_length pad df). apply nth_error_Some. congruence. }
    destruct (nth_error df i) as [prev |] eqn:Eprev;
      [| apply nth_error_None in Eprev; lia].
    destruct (nth_error df (S i)) as [cur |] eqn:Ecur;
      [| apply nth_error_None in Ecur; lia].
    rewrite (with_returns_nth pad df i prev cur (fun _ => Hnm) Eprev Ecur) in Ho.
    injection Ho as <-.
    pose proof (nth_error_In _ _ Eprev) as Iprev.
    pose proof (nth_error_In _ _ Ecur) as Icur.
    destruct (nonzero_row _ _ Hc (in_map CPI_Combined _ _ Iprev)) as [c0 [Ec0 Zc0]].
    destruct (nonzero_row _ _ Hp (in_map Price _ _ Iprev)) as [p0 [Ep0 Zp0]].
    destruct (nonzero_row _ _ Hc (in_map CPI_Combined _ _ Icur)) as [c1 [Ec1 _]].
    destruct (nonzero_row _ _ Hp (in_map Price _ _ Icur)) as [p1 [Ep1 _]].
    rewrite forallb_forall in He. specialize (He cur Icur).
    unfold has_na. cbn [base Inflation_Rate Gold_Returns].
    rewrite Ec0, Ep0, Ec1, Ep1. unfold one, hundred, of_Z. simpl.
    rewrite Zc0, Zp0. simpl. apply negb_true_iff in He. now rewrite He. }
  split; [exact E |].
  pose proof (with_returns_length pad df) as L.
  pose proof (with_returns_base pad df) as B.
  rewrite E. split.
  - destruct (with_returns pad df); simpl in *; lia.
  - rewrite <- B at 2. now destruct (with_returns pad df).
Qed.

Lemma clean_frame_loses_only_its_first_row_witness :
  clean_frame steady_price
  /\ length (returns true steady_price) = 3%nat.
Proof.
  assert (H : clean_frame steady_price) by (repeat split; reflexivity).
  split; [exact H |].
  exact (proj1 (proj2 (clean_frame_loses_only_its_first_row true steady_price H))).
Defined.

Lemma is_neg_true_iff (q : Qc) : is_neg q = true <-> (q < 0)%Qc.
Proof.
  unfold is_neg. rewrite Qclt_alt.
  destruct (q ?= 0)%Qc; split; intros H; try reflexivity; discriminate.
Qed.

Lemma strictly_sorted_filter {A : Type} (f : A -> Z) (keep : A -> bool)
  (l : list A) :
  StronglySorted Z.lt (map f l) -> StronglySorted Z.lt (map f (filter keep l)).
Proof.
  induction l as [| a l IH]; simpl; intros H; [constructor |].
  inversion H as [| ? ? Hrest Hhead]; subst.
  destruct (keep a); simpl; [| now apply IH].
  constructor; [now apply IH |].
  rewrite Forall_forall in *. intros k Hk. apply Hhead.
  apply in_map_iff in Hk as [x [<- Hx]]. apply filter_In in Hx as [Hx _].
  now apply in_map.
Qed.

(** X11: the return stage neither reorders nor invents rows: every row it
    returns annotates a row of the merged frame, and when the merged keys
    increase strictly so do the keys of the result. *)
Theorem returns_keep_date_order (pad : bool) (df : list Row) :
  StronglySorted Z.lt (keys df) ->
  StronglySorted Z.lt (keys (map base (returns pad df)))
  /\ forall o, In o (returns pad df) -> In (base o) df.
Proof.
  intros Hs. split.
  - unfold keys. rewrite map_map. unfold returns, dropna.
    apply (strictly_sorted_filter (fun o => value (Date (base o)))).
    rewrite <- (map_map base (fun r => value (Date r))), with_returns_base.
    exact Hs.
  - intros o Ho. unfold returns, dropna in Ho. apply filter_In in Ho as [Ho _].
    rewrite <- (with_returns_base pad df) at 1. now apply in_map.
Qed.

Lemma returns_keep_date_order_witness :
  StronglySorted Z.lt (keys (map base (returns true zero_index))).
Proof.
  apply returns_keep_date_order.
  assert (E : keys zero_index = [19358; 19389; 19417]) by reflexivity.
  rewrite E. repeat constructor; lia.
Defined.

(* ================================================================== *)
(** * Further properties of the rolling statistics *)

Lemma iloc_length (xs : list float) (i W : nat) :
  (i + W <= length xs)%nat -> length (iloc xs i W) = W.
Proof.
  intros H. unfold iloc. rewrite length_firstn, length_skipn. lia.
Qed.

Lemma iloc_nth (xs : list float) (i W n : nat) :
  (n < W)%nat -> nth_error (iloc xs i W) n = nth_error xs (i + n).
Proof.
  intros H. unfold iloc. rewrite nth_error_firstn, nth_error_skipn.
  apply Nat.ltb_lt in H. now rewrite H.
Qed.

(** X12: from row [W-1] on, the rolling correlation and the rolling beta of
    a row are computed from the same window: the [W] rows that end at that
    row. *)
Theorem rolling_columns_share_their_windows
  (wcorr : window_correlation) (ols : ols_fitter) (x y : list float) (W j : nat) :
  (1 <= W)%nat -> (W - 1 <= j)%nat -> (j < length x)%nat ->
  nth_error (rolling_corr wcorr W x y) j
  = Some (wcorr (iloc x (j + 1 - W) W) (iloc y (j + 1 - W) W))
  /\ nth_error (rolling_beta ols x y W) j
     = Some (match window_beta ols (iloc x (j + 1 - W) W)
                                   (iloc y (j + 1 - W) W) with
             | Some b => b
             | None => NaN
             end)
  /\ length (iloc x (j + 1 - W) W) = W
  /\ nth_error (iloc x (j + 1 - W) W) 0 = nth_error x (j + 1 - W)
  /\ nth_error (iloc x (j + 1 - W) W) (W - 1) = nth_error x j.
Proof.
  intros Hpos Hlo Hhi. split; [| split; [| split; [| split]]].
  - now apply rolling_corr_full_window.
  - replace j with (W - 1 + (j + 1 - W))%nat at 1 by lia.
    apply rolling_beta_window. lia.
  - apply iloc_length. lia.
  - rewrite iloc_nth by lia. f_equal. lia.
  - rewrite iloc_nth by lia. f_equal. lia.
Qed.

Lemma rolling_columns_share_their_windows_witness :
  nth_error (rolling_beta two_point_ols flat_then_rising three_returns 2) 2
  = Some (match window_beta two_point_ols (iloc flat_then_rising 1 2)
                                          (iloc three_returns 1 2) with
          | Some b => b
          | None => NaN
          end)
  /\ nth_error (iloc flat_then_rising 1 2) 1 = nth_error flat_then_rising 2.
Proof.
  assert (H1 : (1 <= 2)%nat) by lia.
  assert (H2 : (2 - 1 <= 2)%nat) by (simpl; lia).
  assert (H3 : (2 < length flat_then_rising)%nat)
    by (unfold flat_then_rising; simpl; lia).
  destruct (rolling_columns_share_their_windows two_point_corr two_point_ols
              flat_then_rising three_returns 2 2 H1 H2 H3)
    as [_ [Hb [_ [_ Hlast]]]].
  split; [exact Hb | exact Hlast].
Defined.

Lemma nth_error_combine_inv {A B : Type} (l1 : list A) (l2 : list B) i a b :
  nth_error (combine l1 l2) i = Some (a, b) ->
  nth_error l1 i = Some a /\ nth_error l2 i = Some b.
Proof.
  revert l2 i. induction l1 as [| x l1 IH]; intros l2 i H.
  - destruct i; discriminate.
  - destruct l2 as [| y l2]; [destruct i; discriminate |].
    destruct i as [| i]; simpl in *.
    + injection H as -> ->. now split.
    + now apply IH.
Qed.

(** X13: on a frame of at least eleven observations the three rolling
    columns are assigned: the frame keeps its rows, the first eleven rows
    have no 12-month correlation and no 12-month beta, and the first
    twenty-three rows have no 24-month correlation. *)
Theorem rolling_columns_fill_long_frames
  (wcorr : window_correlation) (ols : ols_fitter) (df : list Obs) :
  (11 <= length df)%nat ->
  exists rows,
    rolling_columns wcorr ols df = Some rows
    /\ map obs rows = df
    /\ forall i row,
         nth_error rows i = Some row ->
         ((i < 11)%nat ->
          Rolling_Corr_12m row = NaN /\ Rolling_Beta_12m row = NaN)
         /\ ((i < 23)%nat -> Rolling_Corr_24m row = NaN).
Proof.
  intros Hlen. unfold rolling_columns.
  set (x := col_Inflation_Rate df). set (y := col_Gold_Returns df).
  assert (Lx : length x = length df)
    by (unfold x, col_Inflation_Rate; now rewrite length_map).
  assert (Lb : length (rolling_beta ols x y 12) = length df)
    by (rewrite rolling_beta_length, Lx; lia).
  assert (L12 : length (rolling_corr wcorr 12 x y) = length df)
    by (now rewrite rolling_corr_length).
  assert (L24 : length (rolling_corr wcorr 24 x y) = length df)
    by (now rewrite rolling_corr_length).
  rewrite Lb, Nat.eqb_refl. eexists. split; [reflexivity |]. split.
  - rewrite map_map. cbn [obs].
    change (fun x0 : Obs * (float * (float * float)) => fst x0)
      with (@fst Obs (float * (float * float))).
    apply map_fst_combine_same_length.
    rewrite !length_combine. lia.
  - intros i row Hrow. rewrite nth_error_map in Hrow.
    destruct (nth_error (combine df (combine (rolling_corr wcorr 12 x y)
                (combine (rolling_corr wcorr 24 x y) (rolling_beta ols x y 12)))) i)
      as [[o [c12 [c24 b12]]] |] eqn:E; [| discriminate].
    injection Hrow as <-. cbn [Rolling_Corr_12m Rolling_Corr_24m Rolling_Beta_12m fst snd].
    apply nth_error_combine_inv in E as [Ho E].
    apply nth_error_combine_inv in E as [H12 E].
    apply nth_error_combine_inv in E as [H24 Hb].
    assert (Hi : (i < length x)%nat).
    { rewrite Lx. apply nth_error_Some. congruence. }
    split.
    + intros Hsmall. split.
      * rewrite rolling_corr_head in H12 by (simpl; lia). congruence.
      * rewrite rolling_beta_head in Hb by (simpl; lia). congruence.
    + intros Hsmall.
      rewrite rolling_corr_head in H24 by (simpl; lia). congruence.
Qed.

Lemma rolling_columns_fill_long_frames_witness :
  exists rows,
    rolling_columns two_point_corr two_point_ols year_of_observations = Some rows
    /\ map obs rows = year_of_observations.
Proof.
  assert (H : (11 <= length year_of_observations)%nat) by (vm_compute; lia).
  destruct (rolling_columns_fill_long_frames two_point_corr two_point_ols
              year_of_observations H) as [rows [E [Hobs _]]].
  exists rows. split; assumption.
Defined.

(** X14: when the fitted model lists the intercept first and the inflation
    coefficient second and its summary is printed without an exception, the
    rolling beta of a frame of exactly [W] rows is, at its last row, the
    slope the static fit reports for that frame. *)
Theorem full_window_beta_is_static_beta
  (ols : ols_fitter) (summary : summary_printer) (W : nat) (df : list Obs)
  (model : OLSResults) (a b p : float) :
  (1 <= W)%nat -> length df = W ->
  ols (col_Inflation_Rate df) (col_Gold_Returns df) = Some model ->
  summary (col_Inflation_Rate df) (col_Gold_Returns df) = Some tt ->
  params model = [("const"%string, a); ("Inflation_Rate"%string, b)] ->
  lookup "Inflation_Rate" (pvalues model) = Some p ->
  option_map beta (static_regression ols summary df) = Some b
  /\ nth_error (rolling_beta ols (col_Inflation_Rate df) (col_Gold_Returns df) W)
       (W - 1) = Some b.
Proof.
  intros Hpos Hlen Hfit Hsum Hparams Hp. split.
  - unfold static_regression. rewrite Hfit, Hsum, Hparams, Hp. reflexivity.
  - assert (Lx : length (col_Inflation_Rate df) = W)
      by (unfold col_Inflation_Rate; now rewrite length_map).
    assert (Ly : length (col_Gold_Returns df) = W)
      by (unfold col_Gold_Returns; now rewrite length_map).
    replace (W - 1)%nat with (W - 1 + 0)%nat by lia.
    rewrite rolling_beta_window by lia.
    unfold iloc. cbn [skipn].
    rewrite <- Lx at 1. rewrite firstn_all.
    rewrite <- Ly at 1. rewrite firstn_all.
    unfold window_beta. now rewrite Hfit, Hparams.
Qed.

Lemma full_window_beta_is_static_beta_witness :
  exists b,
    option_map beta (static_regression two_point_ols sample_summary
                       (returns true (merged sample_gold sample_cpi))) = Some b
    /\ nth_error
         (rolling_beta two_point_ols
            (col_Inflation_Rate (returns true (merged sample_gold sample_cpi)))
            (col_Gold_Returns (returns true (merged sample_gold sample_cpi))) 2)
         1 = Some b.
Proof.
  destruct (two_point_ols
              (col_Inflation_Rate (returns true (merged sample_gold sample_cpi)))
              (col_Gold_Returns (returns true (merged sample_gold sample_cpi))))
    as [model |] eqn:E; [| vm_compute in E; discriminate E].
  destruct (params model) as [| [n1 a] [| [n2 b] [| ? ?]]] eqn:Ep;
    try (vm_compute in E; injection E as <-; discriminate Ep).
  assert (Hn : n1 = "const"%string /\ n2 = "Inflation_Rate"%string).
  { vm_compute in E. injection E as <-. simpl in Ep.
    injection Ep as <- _ <- _. now split. }
  destruct Hn as [-> ->].
  assert (Hp : lookup "Inflation_Rate" (pvalues model) = Some NaN).
  { vm_compute in E. injection E as <-. reflexivity. }
  exists b.
  apply (full_window_beta_is_static_beta two_point_ols sample_summary 2
           (returns true (merged sample_gold sample_cpi)) model a b NaN);
    try assumption; try reflexivity. lia.
Defined.

(* ================================================================== *)
(** * Further properties of the date parsing and of the price clean-up *)

(** X15: the gold date parsing fails exactly when each of the four formats
    and the format-free call all fail on the series; when the four formats
    fail, the gold dates are read exactly as index dates are. *)
Theorem gold_dates_fail_only_when_every_parse_fails
  (to_datetime : date_parser) (raw : list string) :
  (gold_dates to_datetime raw = None <->
   (forall fmt, In fmt gold_formats -> to_datetime (Some fmt) raw = None)
   /\ to_datetime None raw = None)
  /\ ((forall fmt, In fmt gold_formats -> to_datetime (Some fmt) raw = None) ->
      gold_dates to_datetime raw = cpi_dates to_datetime raw).
Proof.
  unfold gold_dates, cpi_dates.
  destruct (try_formats_first_success to_datetime gold_formats raw)
    as [[n [fmt [parsed [Hn [Hok [_ Hres]]]]]] | [Hall Hres]]; rewrite Hres.
  - apply nth_error_In in Hn. split.
    + split; [discriminate |]. intros [Hnone _].
      rewrite (Hnone fmt Hn) in Hok. discriminate.
    + intros Hnone. rewrite (Hnone fmt Hn) in Hok. discriminate.
  - split; [| reflexivity].
    destruct (to_datetime None raw) as [parsed |]; simpl; split;
      try discriminate; try tauto.
    intros [_ H]. discriminate.
Qed.

Lemma gold_dates_fail_only_when_every_parse_fails_witness :
  gold_dates sample_to_datetime ["Q1 2023"%string] = None.
Proof.
  apply (proj1 (gold_dates_fail_only_when_every_parse_fails sample_to_datetime
                  ["Q1 2023"%string])).
  split; [intros fmt _ |]; reflexivity.
Defined.

Lemma remove_commas_chars (s : string) :
  list_ascii_of_string (remove_commas s)
  = filter (fun c => negb (Ascii.eqb c ","%char)) (list_ascii_of_string s).
Proof.
  induction s as [| c s IH]; [reflexivity |]. simpl.
  destruct (Ascii.eqb c ","%char); simpl; now rewrite IH.
Qed.

Lemma string_of_chars_inj (s t : string) :
  list_ascii_of_string s = list_ascii_of_string t -> s = t.
Proof.
  intros H. rewrite <- (string_of_list_ascii_of_string s),
    <- (string_of_list_ascii_of_string t). now rewrite H.
Qed.

(** X16: removing the commas from a price leaves no comma, keeps every other
    character in place, changes nothing in a text without comma, and doing it
    twice is doing it once. *)
Theorem remove_commas_strips_only_commas (s : string) :
  ~ In ","%char (list_ascii_of_string (remove_commas s))
  /\ (forall c, c <> ","%char ->
        count_occ ascii_dec (list_ascii_of_string (remove_commas s)) c
        = count_occ ascii_dec (list_ascii_of_string s) c)
  /\ (~ In ","%char (list_ascii_of_string s) -> remove_commas s = s)
  /\ remove_commas (remove_commas s) = remove_commas s.
Proof.
  assert (Hnone : ~ In ","%char (list_ascii_of_string (remove_commas s))).
  { rewrite remove_commas_chars. intros H. apply filter_In in H as [_ H].
    now rewrite Ascii.eqb_refl in H. }
  assert (Hid : forall t, ~ In ","%char (list_ascii_of_string t) ->
                          remove_commas t = t).
  { intros t Ht. apply string_of_chars_inj. rewrite remove_commas_chars.
    apply forallb_filter_id, forallb_forall. intros c Hc.
    apply negb_true_iff, Ascii.eqb_neq. intros ->. contradiction. }
  split; [exact Hnone |]. split; [| split; [apply Hid | now apply Hid]].
  intros c Hc. rewrite remove_commas_chars.
  induction (list_ascii_of_string s) as [| d l IH]; [reflexivity |]. simpl.
  destruct (Ascii.eqb d ","%char) eqn:E; simpl.
  - apply Ascii.eqb_eq in E. subst d.
    destruct (ascii_dec ","%char c) as [F | F]; [now symmetry in F |].
    exact IH.
  - destruct (ascii_dec d c); now rewrite IH.
Qed.

Lemma astype_float_cells (to_float : string -> option float) (cells : list string) :
  (forall prices,
      astype_float to_float cells = Some prices ->
      length prices = length cells
      /\ forall i cell,
           nth_error cells i = Some cell ->
           exists x, to_float cell = Some x /\ nth_error prices i = Some x)
  /\ (astype_float to_float cells = None <->
      exists cell, In cell cells /\ to_float cell = None).
Proof.
  induction cells as [| c cells [IHok IHfail]]; simpl.
  - split.
    + intros prices H. injection H as <-. split; [reflexivity |].
      intros i cell Hi. destruct i; discriminate.
    + split; [discriminate | intros [cell [[] _]]].
  - destruct (to_float c) as [x |] eqn:Ec.
    + destruct (astype_float to_float cells) as [xs |] eqn:Erest.
      * split.
        -- intros prices H. injection H as <-.
           destruct (IHok xs eq_refl) as [Hlen Hnth]. split; [simpl; lia |].
           intros [| i] cell Hi; simpl in Hi.
           ++ injection Hi as <-. eauto.
           ++ now apply Hnth.
        -- split; [discriminate |].
           intros [cell [[<- | Hin] Hnone]]; [congruence |].
           assert (Some xs = None) by (apply IHfail; eauto). discriminate.
      * split; [discriminate |]. split; [| reflexivity].
        intros _. destruct (proj1 IHfail eq_refl) as [cell [Hin Hnone]].
        exists cell. split; [now right | assumption].
    + split; [discriminate |]. split; [| reflexivity].
      intros _. exists c. split; [now left | assumption].
Qed.

(** X17: the price clean-up leaves a numeric column as it is; on a text
    column it gives one price per cell, each read from the cell with its
    commas removed, and it fails exactly when some cell, commas removed, does
    not read as a number. *)
Theorem clean_prices_reads_every_cell_or_fails
  (to_float : string -> option float) :
  (forall values, clean_prices to_float (NumericPrices values) = Some values)
  /\ (forall cells prices,
        clean_prices to_float (ObjectPrices cells) = Some prices ->
        length prices = length cells
        /\ forall i cell,
             nth_error cells i = Some cell ->
             exists x, to_float (remove_commas cell) = Some x
                       /\ nth_error prices i = Some x)
  /\ (forall cells,
        clean_prices to_float (ObjectPrices cells) = None <->
        exists cell, In cell cells /\ to_float (remove_commas cell) = None).
Proof.
  split; [reflexivity |]. split.
  - intros cells prices H. unfold clean_prices in H.
    destruct (proj1 (astype_float_cells to_float (map remove_commas cells))
                prices H) as [Hlen Hnth].
    rewrite length_map in Hlen. split; [exact Hlen |].
    intros i cell Hi. apply Hnth. now rewrite nth_error_map, Hi.
  - intros cells. unfold clean_prices.
    rewrite (proj2 (astype_float_cells to_float (map remove_commas cells))).
    split.
    + intros [c [Hin Hnone]]. apply in_map_iff in Hin as [cell [<- Hin]]. eauto.
    + intros [cell [Hin Hnone]]. exists (remove_commas cell).
      split; [now apply in_map | assumption].
Qed.

Lemma clean_prices_reads_every_cell_or_fails_witness :
  exists prices,
    clean_prices digits_to_float grouped_prices = Some prices
    /\ length prices = 3%nat
    /\ option_map (same (of_Z 123456)) (nth_error prices 1) = Some true.
Proof.
  destruct (clean_prices digits_to_float grouped_prices) as [prices |] eqn:E;
    [| vm_compute in E; discriminate E].
  exists prices. split; [reflexivity |].
  destruct (proj1 (proj2 (clean_prices_reads_every_cell_or_fails digits_to_float))
              ["60,000"; "1,23,456"; "59000"]%string prices E) as [Hlen Hnth].
  split; [exact Hlen |].
  destruct (Hnth 1%nat "1,23,456"%string eq_refl) as [x [Hx ->]].
  vm_compute in Hx. injection Hx as <-. reflexivity.
Defined.

(* ================================================================== *)
(** * Properties of the date range *)

Lemma fold_min_least (ks : list Z) (k : Z) :
  In (fold_left Z.min ks k) (k :: ks)
  /\ forall x, In x (k :: ks) -> fold_left Z.min ks k <= x.
Proof.
  revert k. induction ks as [| a ks IH]; intros k; simpl.
  - split; [now left | intros x [<- | []]; lia].
  - destruct (IH (Z.min k a)) as [Hin Hle]. split.
    + destruct Hin as [E | Hin]; [| now right; right].
      rewrite <- E. destruct (Z.min_spec k a) as [[_ ->] | [_ ->]];
        [now left | right; now left].
    + intros x Hx.
      assert (Hm : fold_left Z.min ks (Z.min k a) <= Z.min k a)
        by (apply Hle; now left).
      destruct Hx as [<- | [<- | Hx]]; [lia | lia |].
      apply Hle. now right.
Qed.

Lemma fold_max_greatest (ks : list Z) (k : Z) :
  In (fold_left Z.max ks k) (k :: ks)
  /\ forall x, In x (k :: ks) -> x <= fold_left Z.max ks k.
Proof.
  revert k. induction ks as [| a ks IH]; intros k; simpl.
  - split; [now left | intros x [<- | []]; lia].
  - destruct (IH (Z.max k a)) as [Hin Hle]. split.
    + destruct Hin as [E | Hin]; [| now right; right].
      rewrite <- E. destruct (Z.max_spec k a) as [[_ ->] | [_ ->]];
        [right; now left | now left].
    + intros x Hx.
      assert (Hm : Z.max k a <= fold_left Z.max ks (Z.max k a))
        by (apply Hle; now left).
      destruct Hx as [<- | [<- | Hx]]; [lia | lia |].
      apply Hle. now right.
Qed.

Lemma date_min_least (df : list Row) (lo : Z) :
  date_min df = Some lo <->
  In lo (keys df) /\ forall k, In k (keys df) -> lo <= k.
Proof.
  unfold date_min. destruct (keys df) as [| k ks].
  - split; [discriminate | intros [[] _]].
  - destruct (fold_min_least ks k) as [Hin Hle]. split.
    + intros H. injection H as <-. now split.
    + intros [Hlo Hall]. f_equal.
      pose proof (Hle lo Hlo). pose proof (Hall _ Hin). lia.
Qed.

Lemma date_max_greatest (df : list Row) (hi : Z) :
  date_max df = Some hi <->
  In hi (keys df) /\ forall k, In k (keys df) -> k <= hi.
Proof.
  unfold date_max. destruct (keys df) as [| k ks].
  - split; [discriminate | intros [[] _]].
  - destruct (fold_max_greatest ks k) as [Hin Hle]. split.
    + intros H. injection H as <-. now split.
    + intros [Hhi Hall]. f_equal.
      pose proof (Hle hi Hhi). pose proof (Hall _ Hin). lia.
Qed.

Lemma sorted_last_greatest (l : list Z) :
  StronglySorted Z.le l -> l <> [] ->
  exists z, hd_error (rev l) = Some z /\ In z l /\ forall x, In x l -> x <= z.
Proof.
  induction l as [| a l IH]; intros Hs Hne; [congruence |].
  inversion Hs as [| ? ? Hs' Hall]; subst. rewrite Forall_forall in Hall.
  destruct l as [| b l].
  - exists a. simpl. split; [reflexivity |]. split; [now left |].
    intros x [<- | []]. lia.
  - destruct (IH Hs' ltac:(discriminate)) as [z [Hz [Hin Hle]]].
    exists z. split; [| split].
    + change (rev (a :: b :: l)) with (rev (b :: l) ++ [a]).
      destruct (rev (b :: l)); [discriminate | exact Hz].
    + now right.
    + intros x [<- | Hx]; [| now apply Hle].
      specialize (Hall z Hin). lia.
Qed.

(** X18: the date range of a frame is the key of the first and of the last
    row of the sorted frame; sorting does not change it, it encloses every
    key, and it is missing exactly on an empty frame. *)
Theorem date_range_is_first_and_last_row (df : list Row) :
  date_min df = hd_error (keys (sort_values df))
  /\ date_max df = hd_error (rev (keys (sort_values df)))
  /\ date_min (sort_values df) = date_min df
  /\ date_max (sort_values df) = date_max df
  /\ (date_min df = None <-> df = [])
  /\ (forall lo hi, date_min df = Some lo -> date_max df = Some hi ->
        forall k, In k (keys df) -> lo <= k <= hi).
Proof.
  assert (Hperm : forall df k, In k (keys (sort_values df)) <-> In k (keys df))
    by (intros; apply in_keys_sort_values).
  assert (Hsorted : forall df, StronglySorted Z.le (keys (sort_values df))).
  { intros d. apply Sorted_StronglySorted; [intros x y z; lia |].
    apply sort_values_sorted. }
  assert (Hmin : forall d, date_min d = hd_error (keys (sort_values d))).
  { intros d. destruct (keys (sort_values d)) as [| k ks] eqn:E.
    - destruct d as [| r d]; [reflexivity |]. exfalso.
      assert (Hin : In (value (Date r)) (keys (sort_values (r :: d))))
        by (apply Hperm; now left).
      rewrite E in Hin. exact Hin.
    - simpl. apply date_min_least. pose proof (Hsorted d) as S. rewrite E in S.
      inversion S as [| ? ? _ Hall]; subst. rewrite Forall_forall in Hall.
      split.
      + apply Hperm. rewrite E. now left.
      + intros x Hx. apply Hperm in Hx. rewrite E in Hx.
        destruct Hx as [<- | Hx]; [lia | now apply Hall]. }
  assert (Hmax : forall d, date_max d = hd_error (rev (keys (sort_values d)))).
  { intros d. destruct (keys (sort_values d)) as [| k ks] eqn:E.
    - destruct d as [| r d]; [reflexivity |]. exfalso.
      assert (Hin : In (value (Date r)) (keys (sort_values (r :: d))))
        by (apply Hperm; now left).
      rewrite E in Hin. exact Hin.
    - pose proof (Hsorted d) as S. rewrite E in S.
      destruct (sorted_last_greatest (k :: ks) S ltac:(discriminate))
        as [z [Hz [Hin Hle]]].
      rewrite Hz. apply date_max_greatest. split.
      + apply Hperm. now rewrite E.
      + intros x Hx. apply Hle. rewrite <- E. now apply Hperm. }
  assert (Hmin_inv : forall d, date_min (sort_values d) = date_min d).
  { intros d. destruct (date_min d) as [lo |] eqn:E.
    - apply date_min_least. apply date_min_least in E as [Hin Hle]. split.
      + now apply Hperm.
      + intros k Hk. apply Hle. now apply Hperm.
    - unfold date_min in *. destruct (keys d) as [| k ks] eqn:K; [| discriminate].
      destruct (keys (sort_values d)) as [| k' ks'] eqn:K'; [reflexivity |].
      exfalso. assert (Hin : In k' (keys d)) by (apply Hperm; rewrite K'; now left).
      rewrite K in Hin. exact Hin. }
  assert (Hmax_inv : forall d, date_max (sort_values d) = date_max d).
  { intros d. destruct (date_max d) as [hi |] eqn:E.
    - apply date_max_greatest. apply date_max_greatest in E as [Hin Hle]. split.
      + now apply Hperm.
      + intros k Hk. apply Hle. now apply Hperm.
    - unfold date_max in *. destruct (keys d) as [| k ks] eqn:K; [| discriminate].
      destruct (keys (sort_values d)) as [| k' ks'] eqn:K'; [reflexivity |].
      exfalso. assert (Hin : In k' (keys d)) by (apply Hperm; rewrite K'; now left).
      rewrite K in Hin. exact Hin. }
  split; [apply Hmin |]. split; [apply Hmax |].
  split; [apply Hmin_inv |]. split; [apply Hmax_inv |]. split.
  - unfold date_min. destruct df as [| r df]; simpl.
    + split; reflexivity.
    + split; discriminate.
  - intros lo hi Hlo Hhi k Hk.
    apply date_min_least in Hlo as [_ Hlo]. apply date_max_greatest in Hhi as [_ Hhi].
    split; [now apply Hlo | now apply Hhi].
Qed.

(* ================================================================== *)
(** * Properties of the wording of the findings *)

Lemma flt_finite (q c : Qc) :
  (flt (Fin q) (Fin c) = true <-> (q < c)%Qc)
  /\ (flt (Fin q) (Fin c) = false <-> (c <= q)%Qc).
Proof.
  assert (T : flt (Fin q) (Fin c) = true <-> (q < c)%Qc).
  { unfold flt. rewrite Qclt_alt.
    destruct (q ?= c)%Qc; split; intros H; try reflexivity; discriminate. }
  split; [exact T |]. split.
  - intros F. apply Qcnot_lt_le. intros H. apply T in H. congruence.
  - intros H. destruct (flt (Fin q) (Fin c)) eqn:E; [| reflexivity].
    exfalso. apply (Qcle_not_lt _ _ H). now apply T.
Qed.

Lemma flt_cases (q c : Qc) :
  (flt (Fin q) (Fin c) = true /\ (q < c)%Qc)
  \/ (flt (Fin q) (Fin c) = false /\ (c <= q)%Qc).
Proof.
  destruct (flt_finite q c) as [T F].
  destruct (Qclt_le_dec q c) as [H | H].
  - left. split; [now apply T | assumption].
  - right. split; [now apply F | assumption].
Qed.

(** X19: wording of the significance and of the hedge quality.  The slope
    is called significant exactly for a p-value below 0.05 (or minus
    infinity), so a missing p-value reads as not significant; the hedge is
    WEAK for every slope below 0.5, negative slopes included, PARTIAL from
    0.5 up to 1, and STRONG from 1 on and also when the slope is missing. *)
Theorem significance_and_hedge_wording (v : float) :
  (significance v = "(Significant)"%string <->
   v = Inf true \/ exists q, v = Fin q /\ (q < Q2Qc (1 # 20))%Qc)
  /\ (hedge_quality v = "WEAK HEDGE"%string <->
      v = Inf true \/ exists q, v = Fin q /\ (q < Q2Qc (1 # 2))%Qc)
  /\ (hedge_quality v = "PARTIAL HEDGE"%string <->
      exists q, v = Fin q /\ (Q2Qc (1 # 2) <= q)%Qc /\ (q < 1)%Qc)
  /\ (hedge_quality v = "STRONG HEDGE"%string <->
      v = NaN \/ v = Inf false \/ exists q, v = Fin q /\ (1 <= q)%Qc).
Proof.
  unfold significance, hedge_quality, one, of_Q, of_Z.
  change (Q2Qc (inject_Z 1)) with 1%Qc.
  destruct v as [| s | q].
  - simpl. repeat split; intros H; try discriminate; try (now left);
      try (destruct H as [H | [q [H _]]]; discriminate);
      try (destruct H as [q [H _]]; discriminate).
  - destruct s; simpl; repeat split; intros H; try discriminate;
      try (now left); try (right; now left);
      try (destruct H as [H | [q [H _]]]; discriminate);
      try (destruct H as [q [H _]]; discriminate);
      try (destruct H as [H | [H | [q [H _]]]]; discriminate).
  - assert (Hlt : (Q2Qc (1 # 2) < 1)%Qc) by reflexivity.
    split; [| split; [| split]].
    + destruct (flt_cases q (Q2Qc (1 # 20))) as [[E Hq] | [E Hq]]; rewrite E.
      * split; [| reflexivity]. intros _. right. exists q. now split.
      * split; [discriminate |]. intros [H | [q' [H Hq']]]; [discriminate |].
        injection H as <-. exfalso. exact (Qcle_not_lt _ _ Hq Hq').
    + destruct (flt_cases q (Q2Qc (1 # 2))) as [[E Hq] | [E Hq]]; rewrite E.
      * split; [| reflexivity]. intros _. right. exists q. now split.
      * split.
        -- destruct (flt (Fin q) (Fin 1%Qc)); discriminate.
        -- intros [H | [q' [H Hq']]]; [discriminate |].
           injection H as <-. exfalso. exact (Qcle_not_lt _ _ Hq Hq').
    + destruct (flt_cases q (Q2Qc (1 # 2))) as [[E Hq] | [E Hq]]; rewrite E.
      * split; [discriminate |]. intros [q' [H [Hlo _]]]. injection H as <-.
        exfalso. exact (Qcle_not_lt _ _ Hlo Hq).
      * destruct (flt_cases q 1%Qc) as [[F Hp] | [F Hp]]; rewrite F.
        -- split; [| reflexivity]. intros _. exists q. now repeat split.
        -- split; [discriminate |]. intros [q' [H [_ Hhi]]]. injection H as <-.
           exfalso. exact (Qcle_not_lt _ _ Hp Hhi).
    + destruct (flt_cases q (Q2Qc (1 # 2))) as [[E Hq] | [E Hq]]; rewrite E.
      * split; [discriminate |].
        intros [H | [H | [q' [H Hq']]]]; try discriminate. injection H as <-.
        exfalso.
        exact (Qcle_not_lt _ _ Hq' (Qclt_trans _ _ _ Hq Hlt)).
      * destruct (flt_cases q 1%Qc) as [[F Hp] | [F Hp]]; rewrite F.
        -- split; [discriminate |].
           intros [H | [H | [q' [H Hq']]]]; try discriminate. injection H as <-.
           exfalso. exact (Qcle_not_lt _ _ Hq' Hp).
        -- split; [| reflexivity]. intros _. right. right. exists q. now split.
Qed.

Lemma fabs_fneg (v : float) : fabs (fneg v) = fabs v.
Proof.
  destruct v as [| s | q]; try reflexivity. simpl. f_equal.
  destruct (is_neg q) eqn:E, (is_neg (- q)) eqn:F; try reflexivity.
  - apply is_neg_true_iff in E, F. exfalso.
    apply Qclt_le_weak, Qcopp_le_compat in E.
    change (- 0)%Qc with 0%Qc in E. exact (Qcle_not_lt _ _ E F).
  - now rewrite Qcopp_involutive.
  - destruct (Qc_dec q 0) as [[H | H] | H].
    + apply is_neg_true_iff in H. congruence.
    + apply Qclt_le_weak, Qcopp_le_compat in H. change (- 0)%Qc with 0%Qc in H.
      apply Qcle_lt_or_eq in H as [H | H].
      * apply is_neg_true_iff in H. congruence.
      * rewrite <- (Qcopp_involutive q), H. reflexivity.
    + subst q. reflexivity.
Qed.

(** X20: wording of the relationship.  It depends on the size of the
    correlation only, not on its sign; a missing or infinite correlation is
    called STRONG; a finite one is WEAK when its size is below the double
    that the literal 0.3 denotes, MODERATE from that double up to the double
    of the literal 0.6, and STRONG from there on. *)
Theorem relationship_wording (v : float) :
  relationship (fneg v) = relationship v
  /\ (is_finite v = false -> relationship v = "STRONG"%string)
  /\ (forall q, v = Fin q -> (0 <= q)%Qc ->
        (relationship v = "WEAK"%string <-> (q < Q2Qc literal_0_3)%Qc)
        /\ (relationship v = "MODERATE"%string <->
            (Q2Qc literal_0_3 <= q)%Qc /\ (q < Q2Qc literal_0_6)%Qc)
        /\ (relationship v = "STRONG"%string <-> (Q2Qc literal_0_6 <= q)%Qc)).
Proof.
  split; [| split].
  - unfold relationship. now rewrite fabs_fneg.
  - destruct v as [| s | q]; try discriminate; reflexivity.
  - intros q -> Hq. unfold relationship, of_Q.
    assert (Habs : fabs (Fin q) = Fin q).
    { simpl. destruct (is_neg q) eqn:E; [| reflexivity].
      apply is_neg_true_iff in E. exfalso. exact (Qcle_not_lt _ _ Hq E). }
    rewrite Habs.
    assert (Hlt : (Q2Qc literal_0_3 < Q2Qc literal_0_6)%Qc) by reflexivity.
    destruct (flt_cases q (Q2Qc literal_0_3)) as [[E Hw] | [E Hw]]; rewrite E.
    + split; [| split].
      * split; [now intros _ | reflexivity].
      * split; [discriminate |]. intros [Hlo _]. exfalso.
        exact (Qcle_not_lt _ _ Hlo Hw).
      * split; [discriminate |]. intros Hs. exfalso.
        exact (Qcle_not_lt _ _ Hs (Qclt_trans _ _ _ Hw Hlt)).
    + destruct (flt_cases q (Q2Qc literal_0_6)) as [[F Hm] | [F Hm]]; rewrite F.
      * split; [| split].
        -- split; [discriminate |]. intros H. exfalso. exact (Qcle_not_lt _ _ Hw H).
        -- split; [now intros _ | reflexivity].
        -- split; [discriminate |]. intros H. exfalso. exact (Qcle_not_lt _ _ H Hm).
      * split; [| split].
        -- split; [discriminate |]. intros H. exfalso. exact (Qcle_not_lt _ _ Hw H).
        -- split; [discriminate |]. intros [_ H]. exfalso.
           exact (Qcle_not_lt _ _ Hm H).
        -- split; [now intros _ | reflexivity].
Qed.

Lemma relationship_wording_witness :
  relationship (of_Q literal_0_3) = "MODERATE"%string
  /\ relationship (fneg (of_Q literal_0_3)) = "MODERATE"%string.
Proof.
  destruct (relationship_wording (of_Q literal_0_3)) as [Hsym [_ Hcls]].
  assert (Hmod : relationship (of_Q literal_0_3) = "MODERATE"%string).
  { destruct (Hcls (Q2Qc literal_0_3) eq_refl ltac:(discriminate))
      as [_ [Hm _]].
    apply Hm. split; [discriminate | reflexivity]. }
  split; [exact Hmod |]. now rewrite Hsym.
Defined.
